(** * IntegrationsService (packages/nocodb/src/services/integrations.service.ts)

    A shallow embedding of the integration lifecycle service: the durable
    metadata tables, the transaction handle, the distributed cache, the
    per-process connection references, the cross-process command bus and the
    application events, with the service methods written as computations in a
    state-and-exception monad that mirrors the [async]/[await] code. *)

From Stdlib Require Import List Bool.
From stdpp Require Import gmap strings list fin_maps.

Set Default Proof Using "Type".
Set Warnings "-register-all".

(** ** Data model *)

(** The connection config is a sealed blob for this service. *)
Definition Config : Type := string.

Module Source.
Record t : Type := mk {
  id : string;
  base_id : string;
  fk_workspace_id : string;
  fk_integration_id : option string;
  deleted : option bool;              (* tri-state: null, false, true *)
  integration_config : option Config
}.
End Source.

Module Base.
Record t : Type := mk {
  id : string;
  fk_workspace_id : string;
  title : string
}.
End Base.

Module Integration.
Record t : Type := mk {
  id : string;
  fk_workspace_id : string;
  title : string;
  type : string;
  config : option Config;             (* [None] is JS [undefined] *)
  created_by : option string;
  deleted : option bool;
  sources : option (list Source.t)    (* filled by [getSources] *)
}.
End Integration.

Module User.
Record t : Type := mk { id : string }.
End User.

Record NcRequest : Type := { user : option User.t }.

Record NcContext : Type := { workspace_id : string }.

(** [IntegrationReqType] of the SDK, as far as the service reads it. *)
Record IntegrationReqType : Type := {
  req_title : string;
  req_type : string;
  req_config : option Config;
  req_fk_workspace_id : option string;
  req_copy_from_id : option string
}.

(** The object literal handed to [Integration.createIntegration] and
    [Integration.updateIntegration]; it is built with spreads, so every
    property may be missing. *)
Record IntegrationBody : Type := {
  b_id : option string;
  b_fk_workspace_id : option string;
  b_title : option string;
  b_type : option string;
  b_config : option Config;
  b_created_by : option string
}.

Definition spreadReq (r : IntegrationReqType) : IntegrationBody :=
  {| b_id := None;
     b_fk_workspace_id := req_fk_workspace_id r;
     b_title := Some (req_title r);
     b_type := Some (req_type r);
     b_config := req_config r;
     b_created_by := None |}.

Definition spreadIntegration (i : Integration.t) : IntegrationBody :=
  {| b_id := Some (Integration.id i);
     b_fk_workspace_id := Some (Integration.fk_workspace_id i);
     b_title := Some (Integration.title i);
     b_type := Some (Integration.type i);
     b_config := Integration.config i;
     b_created_by := Integration.created_by i |}.

Definition withId (x : string) (b : IntegrationBody) : IntegrationBody :=
  {| b_id := Some x;
     b_fk_workspace_id := b_fk_workspace_id b;
     b_title := b_title b;
     b_type := b_type b;
     b_config := b_config b;
     b_created_by := b_created_by b |}.

Definition withTitle (x : string) (b : IntegrationBody) : IntegrationBody :=
  {| b_id := b_id b;
     b_fk_workspace_id := b_fk_workspace_id b;
     b_title := Some x;
     b_type := b_type b;
     b_config := b_config b;
     b_created_by := b_created_by b |}.

Definition withCreatedBy (x : string) (b : IntegrationBody) : IntegrationBody :=
  {| b_id := b_id b;
     b_fk_workspace_id := b_fk_workspace_id b;
     b_title := b_title b;
     b_type := b_type b;
     b_config := b_config b;
     b_created_by := Some x |}.

(** [integration.config = undefined] and [integration.config = c]. *)
Definition setConfig (c : option Config) (i : Integration.t) : Integration.t :=
  Integration.mk (Integration.id i) (Integration.fk_workspace_id i)
    (Integration.title i) (Integration.type i) c
    (Integration.created_by i) (Integration.deleted i) (Integration.sources i).

Definition setSources (l : list Source.t) (i : Integration.t) : Integration.t :=
  Integration.mk (Integration.id i) (Integration.fk_workspace_id i)
    (Integration.title i) (Integration.type i) (Integration.config i)
    (Integration.created_by i) (Integration.deleted i) (Some l).

Definition setDeleted (d : option bool) (i : Integration.t) : Integration.t :=
  Integration.mk (Integration.id i) (Integration.fk_workspace_id i)
    (Integration.title i) (Integration.type i) (Integration.config i)
    (Integration.created_by i) d (Integration.sources i).

Definition setIntegrationConfig (c : option Config) (s : Source.t) : Source.t :=
  Source.mk (Source.id s) (Source.base_id s) (Source.fk_workspace_id s)
    (Source.fk_integration_id s) (Source.deleted s) c.

(** ** Errors *)

Inductive NcError : Type :=
| ValidationError (schema : string)
| IntegrationNotFound (id : string)
| IntegrationLinkedWithMultiple (bases : list (option Base.t)) (sources : list Source.t)
| BadRequest (cause : NcError)
| TypeError (what : string)            (* property access on [undefined] *)
| Failure (what : string).             (* raised by a collaborator *)

(** ** Filter conditions of [metaList2] *)

Inductive Value : Type :=
| VNull
| VBool (b : bool)
| VString (s : string).

Definition Value_eqb (a b : Value) : bool :=
  match a, b with
  | VNull, VNull => true
  | VBool x, VBool y => Bool.eqb x y
  | VString x, VString y => String.eqb x y
  | _, _ => false
  end.

Inductive XcCondition : Type :=
| Xc_or (alternatives : list XcCondition)
| Xc_eq (field : string) (v : Value).

Inductive MetaTable : Type := BASES | INTEGRATIONS | PROJECT.

Inductive InstanceCommands : Type := RELEASE.

Inductive AppEvents : Type :=
| INTEGRATION_CREATE
| INTEGRATION_UPDATE
| INTEGRATION_DELETE.

Record AppEvent : Type := {
  ev_name : AppEvents;
  ev_integration : Integration.t;
  ev_req : NcRequest;
  ev_user : option User.t
}.

(** ** The world the service runs in *)

Record Store : Type := {
  integrations : list Integration.t;
  sources : list Source.t;             (* rows of [MetaTable.BASES] *)
  bases : list Base.t
}.

Inductive MetaHandle : Type :=
| RootMeta                             (* [Noco.ncMeta] *)
| TrxMeta.                             (* the handle of [startTransaction] *)

Record World : Type := {
  durable : Store;
  trx : option Store;
  cache : gmap string Source.t;
  connectionRefs : gset (string * string);
  jobsRedisAvailable : bool;
  workerCommands : list (InstanceCommands * string);
  primaryCommands : list (InstanceCommands * string);
  events : list AppEvent;
  logged : list string
}.

Definition setDurable (s : Store) (w : World) : World :=
  {| durable := s; trx := trx w; cache := cache w;
     connectionRefs := connectionRefs w;
     jobsRedisAvailable := jobsRedisAvailable w;
     workerCommands := workerCommands w;
     primaryCommands := primaryCommands w;
     events := events w; logged := logged w |}.

Definition setTrx (t : option Store) (w : World) : World :=
  {| durable := durable w; trx := t; cache := cache w;
     connectionRefs := connectionRefs w;
     jobsRedisAvailable := jobsRedisAvailable w;
     workerCommands := workerCommands w;
     primaryCommands := primaryCommands w;
     events := events w; logged := logged w |}.

Definition setCache (c : gmap string Source.t) (w : World) : World :=
  {| durable := durable w; trx := trx w; cache := c;
     connectionRefs := connectionRefs w;
     jobsRedisAvailable := jobsRedisAvailable w;
     workerCommands := workerCommands w;
     primaryCommands := primaryCommands w;
     events := events w; logged := logged w |}.

Definition setConnectionRefs (c : gset (string * string)) (w : World) : World :=
  {| durable := durable w; trx := trx w; cache := cache w;
     connectionRefs := c;
     jobsRedisAvailable := jobsRedisAvailable w;
     workerCommands := workerCommands w;
     primaryCommands := primaryCommands w;
     events := events w; logged := logged w |}.

Definition setWorkerCommands (l : list (InstanceCommands * string)) (w : World) : World :=
  {| durable := durable w; trx := trx w; cache := cache w;
     connectionRefs := connectionRefs w;
     jobsRedisAvailable := jobsRedisAvailable w;
     workerCommands := l;
     primaryCommands := primaryCommands w;
     events := events w; logged := logged w |}.

Definition setPrimaryCommands (l : list (InstanceCommands * string)) (w : World) : World :=
  {| durable := durable w; trx := trx w; cache := cache w;
     connectionRefs := connectionRefs w;
     jobsRedisAvailable := jobsRedisAvailable w;
     workerCommands := workerCommands w;
     primaryCommands := l;
     events := events w; logged := logged w |}.

Definition setEvents (l : list AppEvent) (w : World) : World :=
  {| durable := durable w; trx := trx w; cache := cache w;
     connectionRefs := connectionRefs w;
     jobsRedisAvailable := jobsRedisAvailable w;
     workerCommands := workerCommands w;
     primaryCommands := primaryCommands w;
     events := l; logged := logged w |}.

Definition setLogged (l : list string) (w : World) : World :=
  {| durable := durable w; trx := trx w; cache := cache w;
     connectionRefs := connectionRefs w;
     jobsRedisAvailable := jobsRedisAvailable w;
     workerCommands := workerCommands w;
     primaryCommands := primaryCommands w;
     events := events w; logged := l |}.

(** The store a handle reads and writes: the root handle works on the
    durable tables, the transaction handle on the transaction's copy. *)
Definition storeOf (h : MetaHandle) (w : World) : Store :=
  match h with
  | RootMeta => durable w
  | TrxMeta => match trx w with Some s => s | None => durable w end
  end.

Definition putStore (h : MetaHandle) (s : Store) (w : World) : World :=
  match h with
  | RootMeta => setDurable s w
  | TrxMeta => setTrx (Some s) w
  end.

(** ** Promises: state that survives a rejection *)

Definition M (A : Type) : Type := World -> (NcError + A) * World.

Definition resolve {A} (a : A) : M A := fun w => (inr a, w).

Definition reject {A} (e : NcError) : M A := fun w => (inl e, w).

Definition andThen {A B} (m : M A) (k : A -> M B) : M B :=
  fun w => match m w with
           | (inl e, w') => (inl e, w')
           | (inr a, w') => k a w'
           end.

Definition tryCatch {A} (m : M A) (handler : NcError -> M A) : M A :=
  fun w => match m w with
           | (inl e, w') => handler e w'
           | (inr a, w') => (inr a, w')
           end.

Definition modify (f : World -> World) : M unit := fun w => (inr tt, f w).

Definition gets {A} (f : World -> A) : M A := fun w => (inr (f w), w).

Declare Scope promise_scope.
Delimit Scope promise_scope with promise.
Notation "'await' x <- m ; k" := (andThen m (fun x => k))
  (at level 10, x name, m at level 100, k at level 200) : promise_scope.
Notation "'await_' m ; k" := (andThen m (fun _ => k))
  (at level 10, m at level 100, k at level 200) : promise_scope.
Local Open Scope promise_scope.

(** [for (const x of l) { await f(x) }] *)
Fixpoint forOf {A} (l : list A) (f : A -> M unit) : M unit :=
  match l with
  | [] => resolve tt
  | x :: rest => await_ f x; forOf rest f
  end.

(** [Promise.all(l.map(f))], the calls started in list order *)
Fixpoint promiseAll {A B} (l : list A) (f : A -> M B) : M (list B) :=
  match l with
  | [] => resolve []
  | x :: rest =>
      await y <- f x;
      await ys <- promiseAll rest f;
      resolve (y :: ys)
  end.

(** ** Collaborators

    The models, the helpers, the caches and the bus live outside this file
    of the repository.  Each call to one of them is named by an [Op]; the
    environment decides, per call, whether it raises. *)

Inductive Op : Type :=
| Op_validatePayload (schema : string) (payload : IntegrationReqType)
| Op_Integration_get (id : string) (flag : bool) (ncMeta : MetaHandle)
| Op_getConnectionConfig (id : string)
| Op_getSources (id : string)
| Op_updateIntegration (id : string)
| Op_createIntegration (body : IntegrationBody)
| Op_Integration_delete (id : string)
| Op_Integration_softDelete (id : string)
| Op_startTransaction
| Op_metaList2 (ncMeta : MetaHandle) (target : MetaTable)
| Op_Base_get (base_id : string)
| Op_baseDelete (sourceId : string)
| Op_commit
| Op_NocoCache_update (key : string)
| Op_deleteAwait (sourceId : string)
| Op_emitWorkerCommand (sourceId : string)
| Op_emitPrimaryCommand (sourceId : string).

Record Env : Type := {
  (** which collaborator calls raise, and with what *)
  fault : Op -> option NcError;
  (** [integration.getConnectionConfig()]: the decrypted connection config *)
  getConnectionConfig : Integration.t -> Config;
  (** the constants [CacheScope.BASE] and [RootScopes.WORKSPACE] of
      [~/utils/globals] *)
  CacheScope_BASE : string;
  RootScopes_WORKSPACE : string;
  (** the id the metadata store gives a new row *)
  genId : Store -> string
}.

(** JS truthiness of an optional string: [undefined], [null] and the empty
    string are falsy. *)
Definition truthy (o : option string) : bool :=
  match o with
  | Some s => negb (String.eqb s EmptyString)
  | None => false
  end.

Definition Source_field (s : Source.t) (name : string) : Value :=
  if String.eqb name "id" then VString (Source.id s)
  else if String.eqb name "base_id" then VString (Source.base_id s)
  else if String.eqb name "fk_workspace_id" then VString (Source.fk_workspace_id s)
  else if String.eqb name "fk_integration_id" then
    match Source.fk_integration_id s with Some i => VString i | None => VNull end
  else if String.eqb name "deleted" then
    match Source.deleted s with Some b => VBool b | None => VNull end
  else if String.eqb name "integration_config" then
    match Source.integration_config s with Some c => VString c | None => VNull end
  else VNull.

Fixpoint xcEval (row : string -> Value) (c : XcCondition) : bool :=
  match c with
  | Xc_or alternatives => existsb (xcEval row) alternatives
  | Xc_eq field v => Value_eqb (row field) v
  end.

(** The [xcCondition] literal that both listings of dependent sources pass:
    [{ _or: [ { deleted: { eq: false } }, { deleted: { eq: null } } ] }]. *)
Definition activeXcCondition : XcCondition :=
  Xc_or [ Xc_eq "deleted" (VBool false); Xc_eq "deleted" VNull ].

Definition sourceKey (s : Source.t) : string * string :=
  (Source.base_id s, Source.id s).

Section Service.

Variable env : Env.

Definition collaborator {A} (op : Op) (m : M A) : M A :=
  fun w => match fault env op with
           | Some e => (inl e, w)
           | None => m w
           end.

(** *** helpers *)

(** Modelled from the spec: [validatePayload] of [~/helpers] checks the
    payload against the named schema and raises a validation error when it
    does not fit; it changes nothing. *)
Definition validatePayload (schema : string) (payload : IntegrationReqType) : M unit :=
  collaborator (Op_validatePayload schema payload) (resolve tt).

(** Modelled from the spec: [NcError.integrationLinkedWithMultiple] raises
    the refusal that names every blocking base by its title and every source
    by its id. A base that [Base.get] did not find is [undefined], and
    reading its title is a TypeError. *)
Definition NcError_integrationLinkedWithMultiple {A} (bases : list (option Base.t))
    (sources : list Source.t) : M A :=
  if forallb (fun b => match b with Some _ => true | None => false end) bases
  then reject (IntegrationLinkedWithMultiple bases sources)
  else reject (TypeError "title").

(** *** the metadata store *)

(** Modelled from the spec: [MetaService.metaList2] is not in this file. A
    list with a condition object (every property must be equal) and a
    boolean-OR filter expression, scoped by a workspace or by the root
    scope. *)
Definition rowMatches (workspace_id : string) (condition : list (string * Value))
    (xcCondition : XcCondition) (s : Source.t) : bool :=
  (String.eqb workspace_id (RootScopes_WORKSPACE env)
   || String.eqb (Source.fk_workspace_id s) workspace_id)
  && forallb (fun fv => Value_eqb (Source_field s (fst fv)) (snd fv)) condition
  && xcEval (Source_field s) xcCondition.

Definition metaList2_rows (st : Store) (workspace_id base_id : string)
    (target : MetaTable) (condition : list (string * Value))
    (xcCondition : XcCondition) : list Source.t :=
  match target with
  | BASES => List.filter (rowMatches workspace_id condition xcCondition) (sources st)
  | _ => []
  end.

Definition metaList2 (ncMeta : MetaHandle) (workspace_id base_id : string)
    (target : MetaTable) (condition : list (string * Value))
    (xcCondition : XcCondition) : M (list Source.t) :=
  collaborator (Op_metaList2 ncMeta target)
    (gets (fun w => metaList2_rows (storeOf ncMeta w) workspace_id base_id
                      target condition xcCondition)).

(** Modelled from the spec: [startTransaction], [commit] and [rollback] of
    the metadata store. The transaction works on its own copy of the tables;
    [commit] makes the copy durable, [rollback] drops it. *)
Definition startTransaction : M MetaHandle :=
  collaborator Op_startTransaction
    (fun w => (inr TrxMeta, setTrx (Some (durable w)) w)).

(** Modelled from the spec: [commit] makes the transaction's tables the
    durable ones and closes the transaction; a commit that raises changes
    nothing. *)
Definition commit : M unit :=
  collaborator Op_commit
    (modify (fun w => match trx w with
                      | Some s => setTrx None (setDurable s w)
                      | None => w
                      end)).

(** Modelled from the spec: [rollback] drops the transaction's tables. *)
Definition rollback (e : NcError) : M unit :=
  modify (setTrx None).

(** *** the models *)

(** Modelled from the spec: [Integration.get] is not in this file. It
    looks the row up by id through the given handle. A missing row gives
    [undefined], which is what the [?.id] test of [integrationCreate] is
    there for; a model that raises NotFound by itself is one of the failures
    the environment can inject. The third argument is handed on as it is. *)
Definition Integration_get (context : NcContext) (id : string) (flag : bool)
    (ncMeta : MetaHandle) : M (option Integration.t) :=
  collaborator (Op_Integration_get id flag ncMeta)
    (gets (fun w => List.find (fun i => String.eqb (Integration.id i) id)
                      (integrations (storeOf ncMeta w)))).

(** Modelled from the spec: [integration.getConnectionConfig()] gives the
    decrypted connection config of the integration. *)
Definition Integration_getConnectionConfig (i : Integration.t) : M Config :=
  collaborator (Op_getConnectionConfig (Integration.id i))
    (resolve (getConnectionConfig env i)).

(** Modelled from the spec: [integration.getSources()] loads the sources that
    reference the integration into the object. *)
Definition Integration_getSources (i : Integration.t) : M Integration.t :=
  collaborator (Op_getSources (Integration.id i))
    (gets (fun w =>
       setSources
         (List.filter
            (fun s => Value_eqb (Source_field s "fk_integration_id")
                        (VString (Integration.id i)))
            (sources (durable w))) i)).

Definition applyBody (b : IntegrationBody) (i : Integration.t) : Integration.t :=
  Integration.mk (Integration.id i)
    (match b_fk_workspace_id b with Some x => x | None => Integration.fk_workspace_id i end)
    (match b_title b with Some x => x | None => Integration.title i end)
    (match b_type b with Some x => x | None => Integration.type i end)
    (match b_config b with Some x => Some x | None => Integration.config i end)
    (match b_created_by b with Some x => Some x | None => Integration.created_by i end)
    (Integration.deleted i) (Integration.sources i).

Definition replaceIntegration (i : Integration.t) (l : list Integration.t) : list Integration.t :=
  List.map (fun j => if String.eqb (Integration.id j) (Integration.id i) then i else j) l.

Definition setIntegrations (l : list Integration.t) (st : Store) : Store :=
  {| integrations := l; sources := sources st; bases := bases st |}.

Definition setSourceRows (l : list Source.t) (st : Store) : Store :=
  {| integrations := integrations st; sources := l; bases := bases st |}.

(** Modelled from the spec: [Integration.updateIntegration] persists the
    changed fields of the row with the given id and returns the row. *)
Definition Integration_updateIntegration (context : NcContext) (id : string)
    (body : IntegrationBody) : M Integration.t :=
  collaborator (Op_updateIntegration id)
    (fun w =>
       match List.find (fun i => String.eqb (Integration.id i) id)
               (integrations (durable w)) with
       | None => (inl (IntegrationNotFound id), w)
       | Some old =>
           let i := applyBody body old in
           (inr i, setDurable (setIntegrations
                                 (replaceIntegration i (integrations (durable w)))
                                 (durable w)) w)
       end).

Definition newIntegration (id : string) (b : IntegrationBody) : Integration.t :=
  Integration.mk id
    (match b_fk_workspace_id b with Some x => x | None => RootScopes_WORKSPACE env end)
    (match b_title b with Some x => x | None => EmptyString end)
    (match b_type b with Some x => x | None => EmptyString end)
    (b_config b) (b_created_by b) None None.

(** Modelled from the spec: [Integration.createIntegration] inserts a new
    row with the title, type, config and creator of the body under an id of
    the store's choosing, and returns it. *)
Definition Integration_createIntegration (body : IntegrationBody) : M Integration.t :=
  collaborator (Op_createIntegration body)
    (fun w =>
       let i := newIntegration (genId env (durable w)) body in
       (inr i, setDurable (setIntegrations (integrations (durable w) ++ [i])
                             (durable w)) w)).

(** Modelled from the spec: [integration.delete(ncMeta)] removes the row. *)
Definition Integration_delete (i : Integration.t) (ncMeta : MetaHandle) : M unit :=
  collaborator (Op_Integration_delete (Integration.id i))
    (modify (fun w =>
       putStore ncMeta
         (setIntegrations
            (List.filter (fun j => negb (String.eqb (Integration.id j) (Integration.id i)))
               (integrations (storeOf ncMeta w)))
            (storeOf ncMeta w)) w)).

Definition markDeleted (id : string) (l : list Integration.t) : list Integration.t :=
  List.map (fun j => if String.eqb (Integration.id j) id
                     then setDeleted (Some true) j else j) l.

(** Modelled from the spec: [integration.softDelete()] sets the delete flag
    of the row, and nothing else. *)
Definition Integration_softDelete (i : Integration.t) : M unit :=
  collaborator (Op_Integration_softDelete (Integration.id i))
    (modify (fun w =>
       setDurable (setIntegrations
                     (markDeleted (Integration.id i) (integrations (durable w)))
                     (durable w)) w)).

(** Modelled from the spec: [Base.get] resolves a base by id through the
    given handle. *)
Definition Base_get (workspace_id base_id : string) (id : string)
    (ncMeta : MetaHandle) : M (option Base.t) :=
  collaborator (Op_Base_get id)
    (gets (fun w => List.find (fun b => String.eqb (Base.id b) id)
                      (bases (storeOf ncMeta w)))).

(** *** cache, connections, bus, events *)

(** Modelled from the spec: [NocoCache.update] merges the fields into the
    cached record at the key; a patch for an absent key is dropped. *)
Definition NocoCache_update (key : string) (integration_config : option Config) : M unit :=
  collaborator (Op_NocoCache_update key)
    (modify (fun w => setCache (alter (setIntegrationConfig integration_config) key (cache w)) w)).

(** Modelled from the spec: [NcConnectionMgrv2.deleteAwait] tears down and
    forgets the connection held for the source; unknown sources are a no-op. *)
Definition NcConnectionMgrv2_deleteAwait (source : Source.t) : M unit :=
  collaborator (Op_deleteAwait (Source.id source))
    (modify (fun w => setConnectionRefs (connectionRefs w ∖ {[ sourceKey source ]}) w)).

(** Modelled from the spec: the two channels of the command bus; a command
    that is sent is appended to the channel. *)
Definition JobsRedis_emitWorkerCommand (c : InstanceCommands) (id : string) : M unit :=
  collaborator (Op_emitWorkerCommand id)
    (modify (fun w => setWorkerCommands (workerCommands w ++ [(c, id)]) w)).

Definition JobsRedis_emitPrimaryCommand (c : InstanceCommands) (id : string) : M unit :=
  collaborator (Op_emitPrimaryCommand id)
    (modify (fun w => setPrimaryCommands (primaryCommands w ++ [(c, id)]) w)).

(** Modelled from the spec: [appHooksService.emit] is fire-and-forget; the
    event is recorded and the call cannot fail the operation. *)
Definition emit (name : AppEvents) (integration : Integration.t) (req : NcRequest) : M unit :=
  modify (fun w => setEvents (events w ++ [ {| ev_name := name;
                                               ev_integration := integration;
                                               ev_req := req;
                                               ev_user := user req |} ]) w).

Definition cacheKey (sourceId : string) : string :=
  String.append (CacheScope_BASE env) (String.append ":" sourceId).

(** Modelled from the spec: [SourcesService.baseDelete] with a handle tears
    the source down: its cache entry, its connection, and its row through
    the handle. *)
Definition baseDelete (workspace_id base_id : string) (sourceId : string)
    (req : NcRequest) (ncMeta : MetaHandle) : M unit :=
  collaborator (Op_baseDelete sourceId)
    (modify (fun w =>
       let st := storeOf ncMeta w in
       let w1 := putStore ncMeta
                   (setSourceRows
                      (List.filter (fun s => negb (String.eqb (Source.id s) sourceId))
                         (sources st)) st) w in
       setConnectionRefs (connectionRefs w1 ∖ {[ (base_id, sourceId) ]})
         (setCache (delete (cacheKey sourceId) (cache w1)) w1))).

(** ** The service *)

Definition IntegrationReq_schema : string :=
  "swagger.json#/components/schemas/IntegrationReq".

Definition integrationGetWithConfig (context : NcContext) (integrationId : string)
    (includeSources : bool) : M Integration.t :=
  await integration <- Integration_get context integrationId false RootMeta;
  match integration with
  | None => reject (TypeError "getConnectionConfig")
  | Some integration =>
      await c <- Integration_getConnectionConfig integration;
      let integration := setConfig (Some c) integration in
      await integration <-
        (if includeSources then Integration_getSources integration
         else resolve integration);
      resolve integration
  end.

(** One turn of the loop of [updateIntegrationSourceConfig]. *)
Definition refreshSource (integration : Integration.t) (sourceObj : Source.t) : M unit :=
  let source := sourceObj in
  (* update the cache with the new config(encrypted) *)
  await_ NocoCache_update (cacheKey (Source.id source)) (Integration.config integration);
  (* delete the connection ref *)
  await_ NcConnectionMgrv2_deleteAwait source;
  (* release the connections from the worker *)
  await available <- gets jobsRedisAvailable;
  if available then
    await_ JobsRedis_emitWorkerCommand RELEASE (Source.id source);
    JobsRedis_emitPrimaryCommand RELEASE (Source.id source)
  else resolve tt.

(** The query of [updateIntegrationSourceConfig]: "get all the bases which
    are using this integration". *)
Definition sourcesUsing (integration : Integration.t) (ncMeta : MetaHandle) : M (list Source.t) :=
  metaList2 ncMeta (Integration.fk_workspace_id integration)
    (RootScopes_WORKSPACE env) BASES
    [ ("fk_integration_id", VString (Integration.id integration)) ]
    activeXcCondition.

Definition updateIntegrationSourceConfig (integration : Integration.t)
    (ncMeta : MetaHandle) : M unit :=
  await sources <- sourcesUsing integration ncMeta;
  (* iterate and update the cache for the sources *)
  forOf sources (refreshSource integration).

Definition integrationUpdate (context : NcContext) (integrationId : string)
    (integration : IntegrationReqType) (req : NcRequest) : M Integration.t :=
  await_ validatePayload IntegrationReq_schema integration;
  let integrationBody := integration in
  await integration <-
    Integration_updateIntegration context integrationId
      (withId integrationId (spreadReq integrationBody));
  (* update the cache for the sources which are using this integration *)
  await_ updateIntegrationSourceConfig integration RootMeta;
  let integration := setConfig None integration in
  await_ emit INTEGRATION_UPDATE integration req;
  resolve integration.

(** The query of [integrationDelete]: "check linked sources". *)
Definition linkedSources (integration : Integration.t) (ncMeta : MetaHandle) : M (list Source.t) :=
  metaList2 ncMeta (RootScopes_WORKSPACE env) (RootScopes_WORKSPACE env) BASES
    [ ("fk_workspace_id", VString (Integration.fk_workspace_id integration));
      ("fk_integration_id", VString (Integration.id integration)) ]
    activeXcCondition.

(** The [try] block of [integrationDelete]. *)
Definition integrationDelete_try (context : NcContext) (integrationId : string)
    (req : NcRequest) (force : bool) (ncMeta : MetaHandle) : M unit :=
  await integration <- Integration_get context integrationId true ncMeta;
  match integration with
  | None => reject (TypeError "fk_workspace_id")
  | Some integration =>
      await sources <- linkedSources integration ncMeta;
      await_ (if (0 <? length sources)%nat && negb force then
                await bases <-
                  promiseAll sources
                    (fun source =>
                       Base_get (Integration.fk_workspace_id integration)
                         (Source.base_id source) (Source.base_id source) ncMeta);
                NcError_integrationLinkedWithMultiple bases sources
              else resolve tt);
      await_ forOf sources
               (fun source =>
                  baseDelete (Integration.fk_workspace_id integration)
                    (Source.base_id source) (Source.id source) req ncMeta);
      await_ Integration_delete integration ncMeta;
      await_ emit INTEGRATION_DELETE integration req;
      commit
  end.

Definition integrationDelete (context : NcContext) (integrationId : string)
    (req : NcRequest) (force : bool) : M bool :=
  await ncMeta <- startTransaction;
  await_ tryCatch (integrationDelete_try context integrationId req force ncMeta)
           (fun e => await_ rollback e; reject (BadRequest e));
  resolve true.

(** The [try] block of [integrationSoftDelete]. *)
Definition integrationSoftDelete_try (context : NcContext) (integrationId : string) : M unit :=
  await integration <- Integration_get context integrationId false RootMeta;
  match integration with
  | None => reject (TypeError "softDelete")
  | Some integration => Integration_softDelete integration
  end.

Definition integrationSoftDelete (context : NcContext) (integrationId : string) : M bool :=
  await_ tryCatch (integrationSoftDelete_try context integrationId)
           (fun e => reject (BadRequest e));
  resolve true.

(** [`${integrationBody.title}_copy`] *)
Definition copyTitle (title : option string) : string :=
  String.append (match title with Some t => t | None => "undefined" end) "_copy".

Definition integrationCreate (context : NcContext) (integration : IntegrationReqType)
    (logger : bool) (req : NcRequest) : M Integration.t :=
  await_ validatePayload IntegrationReq_schema integration;
  await integrationBody <-
    (if truthy (req_copy_from_id integration) then
       let copy_from_id :=
         match req_copy_from_id integration with Some x => x | None => EmptyString end in
       await found <- Integration_get context copy_from_id false RootMeta;
       match found with
       | Some original =>
           if truthy (Some (Integration.id original)) then
             await c <- Integration_getConnectionConfig original;
             resolve (spreadIntegration (setConfig (Some c) original))
           else reject (IntegrationNotFound copy_from_id)
       | None => reject (IntegrationNotFound copy_from_id)
       end
     else resolve (spreadReq integration));
  await_ (if logger then
            modify (fun w => setLogged (logged w ++ ["Creating the integration"]) w)
          else resolve tt);
  match user req with
  | None => reject (TypeError "id")
  | Some u =>
      await integration' <-
        Integration_createIntegration
          (withCreatedBy (User.id u)
             (if truthy (req_copy_from_id integration)
              then withTitle (copyTitle (b_title integrationBody)) integrationBody
              else integrationBody));
      let integration' := setConfig None integration' in
      await_ emit INTEGRATION_CREATE integration' req;
      resolve integration'
  end.

End Service.

Arguments collaborator env {A} op m.

(** ** Notions used in the statements *)

(** The world after the delete flag of the integration [id] has been set. *)
Definition softDeleted (id : string) (w : World) : World :=
  setDurable
    {| integrations :=
         List.map (fun j => if String.eqb (Integration.id j) id
                            then setDeleted (Some true) j else j)
           (integrations (durable w));
       sources := sources (durable w);
       bases := bases (durable w) |} w.

(** A computation that never touches the durable tables. *)
Definition keepsDurable {A} (m : M A) : Prop :=
  forall w, durable (snd (m w)) = durable w.

(** A computation whose failures leave the durable tables as they were. *)
Definition failsClean {A} (m : M A) : Prop :=
  forall w e w', m w = (inl e, w') -> durable w' = durable w.

(** What one turn of the loop does when the bus is not available and
    neither the cache nor the connection manager raises. *)
Definition refreshedLocally (env : Env) (integration : Integration.t)
    (s : Source.t) (w : World) : World :=
  setConnectionRefs (connectionRefs w ∖ {[ sourceKey s ]})
    (setCache (alter (setIntegrationConfig (Integration.config integration))
                 (cacheKey env (Source.id s)) (cache w)) w).

Definition keyIn (env : Env) (k : string) (rows : list Source.t) : bool :=
  existsb (fun s => String.eqb (cacheKey env (Source.id s)) k) rows.

(** The environment with the failures of the per-source steps taken out. *)
Definition withoutPropagationFaults (env : Env) : Env :=
  {| fault := fun op => match op with
                        | Op_NocoCache_update _
                        | Op_deleteAwait _
                        | Op_emitWorkerCommand _
                        | Op_emitPrimaryCommand _ => None
                        | _ => fault env op
                        end;
     getConnectionConfig := getConnectionConfig env;
     CacheScope_BASE := CacheScope_BASE env;
     RootScopes_WORKSPACE := RootScopes_WORKSPACE env;
     genId := genId env |}.

(** Best-effort fan-out, as a property of [integrationUpdate]: failures of
    the per-source steps do not change the result of the call, and every
    cache entry whose own patch does not fail ends up as it would have
    without any such failure. *)
Definition propagation_is_best_effort : Prop :=
  forall env ctx id body rq w,
    let run := integrationUpdate env ctx id body rq w in
    let ideal := integrationUpdate (withoutPropagationFaults env) ctx id body rq w in
    fst run = fst ideal
    /\ (forall key,
          fault env (Op_NocoCache_update key) = None ->
          cache (snd run) !! key = cache (snd ideal) !! key).

(** ** Scenarios *)

Module Scenario.

Definition faultless : Op -> option NcError := fun _ => None.

Definition env (faults : Op -> option NcError) : Env :=
  {| fault := faults;
     getConnectionConfig :=
       fun i => String.append "plain:"
                  (match Integration.config i with
                   | Some c => c
                   | None => EmptyString
                   end);
     CacheScope_BASE := "base";
     RootScopes_WORKSPACE := "workspace";
     genId := fun _ => "int2" |}.

Definition pg : Integration.t :=
  Integration.mk "int1" "ws1" "PG" "database" (Some "sealed") (Some "u1") None None.

Definition s1 : Source.t := Source.mk "src1" "b1" "ws1" (Some "int1") None (Some "sealed").
Definition s2 : Source.t := Source.mk "src2" "b2" "ws1" (Some "int1") (Some false) (Some "sealed").
Definition s3 : Source.t := Source.mk "src3" "b3" "ws1" (Some "int1") (Some false) (Some "sealed").
Definition s4 : Source.t := Source.mk "src4" "b3" "ws1" (Some "int1") (Some true) (Some "sealed").

Definition b1 : Base.t := Base.mk "b1" "ws1" "Sales".
Definition b2 : Base.t := Base.mk "b2" "ws1" "Stock".
Definition b3 : Base.t := Base.mk "b3" "ws1" "Staff".

Definition tables : Store :=
  {| integrations := [pg]; sources := [s1; s2; s3; s4]; bases := [b1; b2; b3] |}.

Definition world : World :=
  {| durable := tables;
     trx := None;
     cache := <["base:src1" := s1]> (<["base:src2" := s2]> (<["base:src3" := s3]> ∅));
     connectionRefs := {[ ("b1", "src1"); ("b2", "src2"); ("b3", "src3") ]};
     jobsRedisAvailable := true;
     workerCommands := [];
     primaryCommands := [];
     events := [];
     logged := [] |}.

(** the same process without a command bus *)
Definition worldNoBus : World :=
  {| durable := tables;
     trx := None;
     cache := cache world;
     connectionRefs := connectionRefs world;
     jobsRedisAvailable := false;
     workerCommands := [];
     primaryCommands := [];
     events := [];
     logged := [] |}.

(** the integration and the bus-less world once [newConfig] (below) has
    been written to the row *)
Definition pgResealed : Integration.t :=
  Integration.mk "int1" "ws1" "PG" "database" (Some "resealed") (Some "u1") None None.

Definition worldNoBusResealed : World :=
  {| durable := {| integrations := [pgResealed];
                   sources := [s1; s2; s3; s4];
                   bases := [b1; b2; b3] |};
     trx := None;
     cache := cache world;
     connectionRefs := connectionRefs world;
     jobsRedisAvailable := false;
     workerCommands := [];
     primaryCommands := [];
     events := [];
     logged := [] |}.

(** an integration nobody uses *)
Definition lonely : World :=
  {| durable := {| integrations := [pg]; sources := [s4]; bases := [b3] |};
     trx := None;
     cache := ∅;
     connectionRefs := ∅;
     jobsRedisAvailable := true;
     workerCommands := [];
     primaryCommands := [];
     events := [];
     logged := [] |}.

Definition ctx : NcContext := {| workspace_id := "ws1" |}.

Definition rq : NcRequest := {| user := Some (User.mk "u1") |}.

Definition newConfig : IntegrationReqType :=
  {| req_title := "PG";
     req_type := "database";
     req_config := Some "resealed";
     req_fk_workspace_id := None;
     req_copy_from_id := None |}.

Definition cloneOf (id : string) : IntegrationReqType :=
  {| req_title := "ignored";
     req_type := "database";
     req_config := None;
     req_fk_workspace_id := None;
     req_copy_from_id := Some id |}.

Definition cacheDownFor (key : string) : Op -> option NcError :=
  fun op => match op with
            | Op_NocoCache_update k =>
                if String.eqb k key then Some (Failure "cache down") else None
            | _ => None
            end.

Definition releaseFailsFor (id : string) : Op -> option NcError :=
  fun op => match op with
            | Op_deleteAwait k =>
                if String.eqb k id then Some (Failure "release failed") else None
            | _ => None
            end.

Definition cascadeFailsAt (id : string) : Op -> option NcError :=
  fun op => match op with
            | Op_baseDelete k =>
                if String.eqb k id then Some (Failure "cascade failed") else None
            | _ => None
            end.

Definition commitFails : Op -> option NcError :=
  fun op => match op with
            | Op_commit => Some (Failure "commit failed")
            | _ => None
            end.

Definition listingFails : Op -> option NcError :=
  fun op => match op with
            | Op_metaList2 _ _ => Some (Failure "listing failed")
            | _ => None
            end.

Definition busBroken : Op -> option NcError :=
  fun op => match op with
            | Op_emitWorkerCommand _ | Op_emitPrimaryCommand _ =>
                Some (Failure "bus broken")
            | _ => None
            end.

Definition softDeleteFails : Op -> option NcError :=
  fun op => match op with
            | Op_Integration_softDelete _ => Some (Failure "write failed")
            | _ => None
            end.

End Scenario.

(** ** Notions used in the further properties *)

(** A computation that leaves one aspect of the world alone, and one whose
    failures do. *)
Definition keeps {A B} (proj : World -> B) (m : M A) : Prop :=
  forall w, proj (snd (m w)) = proj w.

Definition failsKeeping {A B} (proj : World -> B) (m : M A) : Prop :=
  forall w e w', m w = (inl e, w') -> proj w' = proj w.

(** A computation that cannot be rejected. *)
Definition neverFails {A} (m : M A) : Prop :=
  forall w, exists a w', m w = (inr a, w').

(** The payload of [appHooksService.emit]. *)
Definition eventOf (name : AppEvents) (integration : Integration.t)
    (req : NcRequest) : AppEvent :=
  {| ev_name := name;
     ev_integration := integration;
     ev_req := req;
     ev_user := user req |}.

(** The rows the "check linked sources" query gives on a store, and those
    the query of [updateIntegrationSourceConfig] gives. *)
Definition linkedRows (integration : Integration.t) (st : Store) : list Source.t :=
  List.filter
    (fun s => String.eqb (Source.fk_workspace_id s)
                (Integration.fk_workspace_id integration)
              && Value_eqb (Source_field s "fk_integration_id")
                   (VString (Integration.id integration))
              && xcEval (Source_field s) activeXcCondition)
    (sources st).

Definition usingRows (env : Env) (integration : Integration.t) (st : Store) : list Source.t :=
  List.filter
    (fun s => (String.eqb (Integration.fk_workspace_id integration)
                 (RootScopes_WORKSPACE env)
               || String.eqb (Source.fk_workspace_id s)
                    (Integration.fk_workspace_id integration))
              && Value_eqb (Source_field s "fk_integration_id")
                   (VString (Integration.id integration))
              && xcEval (Source_field s) activeXcCondition)
    (sources st).

(** Is the id of [s] the id of one of the rows? *)
Definition listed (rows : list Source.t) (s : Source.t) : bool :=
  existsb (fun r => String.eqb (Source.id s) (Source.id r)) rows.

Definition baseOf (st : Store) (s : Source.t) : option Base.t :=
  List.find (fun b => String.eqb (Base.id b) (Source.base_id s)) (bases st).

(** One RELEASE per row, in the order of the rows. *)
Definition releaseCommands (rows : list Source.t) : list (InstanceCommands * string) :=
  List.map (fun s => (RELEASE, Source.id s)) rows.

(** What a run of the propagation loop over [rows] may have done to the
    world, whatever failed on the way. *)
Definition refreshFootprint (env : Env) (rows : list Source.t) (w w' : World) : Prop :=
  durable w' = durable w
  /\ trx w' = trx w
  /\ events w' = events w
  /\ logged w' = logged w
  /\ jobsRedisAvailable w' = jobsRedisAvailable w
  /\ (forall k, keyIn env k rows = false -> cache w' !! k = cache w !! k)
  /\ (forall k, cache w' !! k = None <-> cache w !! k = None)
  /\ (forall p, p ∈ connectionRefs w' -> p ∈ connectionRefs w).

(** The durable tables together with the emitted events. *)
Definition tablesAndEvents (w : World) : Store * list AppEvent :=
  (durable w, events w).

Module Cases.

Definition startFails : Op -> option NcError :=
  fun op => match op with
            | Op_startTransaction => Some (Failure "no connection")
            | _ => None
            end.

Definition lookupsFail : Op -> option NcError :=
  fun op => match op with
            | Op_Integration_get _ _ _ | Op_Base_get _ =>
                Some (Failure "lookup failed")
            | _ => None
            end.

Definition anonymous : NcRequest := {| user := None |}.

Definition plain : IntegrationReqType :=
  {| req_title := "Mail";
     req_type := "ai";
     req_config := Some "sealed mail";
     req_fk_workspace_id := Some "ws1";
     req_copy_from_id := Some EmptyString |}.

(** the scenario with a stale cache entry and a connection for the
    soft-deleted source *)
Definition worldWithStale : World :=
  {| durable := Scenario.tables;
     trx := None;
     cache := <["base:src4" := Scenario.s4]> (cache Scenario.world);
     connectionRefs := {[ ("b3", "src4") ]} ∪ connectionRefs Scenario.world;
     jobsRedisAvailable := true;
     workerCommands := [];
     primaryCommands := [];
     events := [];
     logged := [] |}.

End Cases.

(** ** Basic facts about promises and collaborators *)

Lemma collaborator_ok env {A} op (m : M A) w :
  fault env op = None -> collaborator env op m w = m w.
Proof. intros H. unfold collaborator. now rewrite H. Qed.

Lemma collaborator_fault env {A} op (m : M A) w e :
  fault env op = Some e -> collaborator env op m w = (inl e, w).
Proof. intros H. unfold collaborator. now rewrite H. Qed.

Lemma andThen_inr {A B} (m : M A) (k : A -> M B) w b w2 :
  andThen m k w = (inr b, w2) ->
  exists a w1, m w = (inr a, w1) /\ k a w1 = (inr b, w2).
Proof.
  unfold andThen. destruct (m w) as [[e|a] w1]; [discriminate|]. eauto.
Qed.

Lemma andThen_inl {A B} (m : M A) (k : A -> M B) w e w2 :
  andThen m k w = (inl e, w2) ->
  m w = (inl e, w2) \/ exists a w1, m w = (inr a, w1) /\ k a w1 = (inl e, w2).
Proof.
  unfold andThen. destruct (m w) as [[e'|a] w1]; intros H.
  - left. congruence.
  - right. eauto.
Qed.

Lemma andThen_step {A B} (m : M A) (k : A -> M B) w a w1 :
  m w = (inr a, w1) -> andThen m k w = k a w1.
Proof. intros H. unfold andThen. now rewrite H. Qed.

Lemma andThen_fail {A B} (m : M A) (k : A -> M B) w e w1 :
  m w = (inl e, w1) -> andThen m k w = (inl e, w1).
Proof. intros H. unfold andThen. now rewrite H. Qed.

(** ** The tri-state delete flag *)

Lemma activeXcCondition_eval s :
  xcEval (Source_field s) activeXcCondition =
  match Source.deleted s with
  | Some true => false
  | Some false | None => true
  end.
Proof. cbn. destruct (Source.deleted s) as [[|]|]; reflexivity. Qed.

Lemma activeXcCondition_true s :
  xcEval (Source_field s) activeXcCondition = true <->
  (Source.deleted s = Some false \/ Source.deleted s = None).
Proof.
  rewrite activeXcCondition_eval.
  destruct (Source.deleted s) as [[|]|]; split; intros H; auto;
    try discriminate; destruct H; discriminate.
Qed.

Lemma references_eval s id :
  Value_eqb (Source_field s "fk_integration_id") (VString id) = true <->
  Source.fk_integration_id s = Some id.
Proof.
  cbn. destruct (Source.fk_integration_id s) as [x|]; cbn.
  - rewrite String.eqb_eq. split; congruence.
  - split; discriminate.
Qed.

Lemma linkedSources_rows env integration h w :
  fault env (Op_metaList2 h BASES) = None ->
  linkedSources env integration h w =
  (inr (List.filter
          (fun s => String.eqb (Source.fk_workspace_id s)
                      (Integration.fk_workspace_id integration)
                    && Value_eqb (Source_field s "fk_integration_id")
                         (VString (Integration.id integration))
                    && xcEval (Source_field s) activeXcCondition)
          (sources (storeOf h w))), w).
Proof.
  intros Hf. unfold linkedSources, metaList2. rewrite collaborator_ok by exact Hf.
  unfold gets, metaList2_rows. f_equal. f_equal.
  apply List.filter_ext. intros s. unfold rowMatches.
  rewrite String.eqb_refl. cbn -[activeXcCondition Source_field].
  rewrite andb_true_r. reflexivity.
Qed.

Lemma sourcesUsing_rows env integration h w :
  fault env (Op_metaList2 h BASES) = None ->
  sourcesUsing env integration h w =
  (inr (List.filter
          (fun s => (String.eqb (Integration.fk_workspace_id integration)
                       (RootScopes_WORKSPACE env)
                     || String.eqb (Source.fk_workspace_id s)
                          (Integration.fk_workspace_id integration))
                    && Value_eqb (Source_field s "fk_integration_id")
                         (VString (Integration.id integration))
                    && xcEval (Source_field s) activeXcCondition)
          (sources (storeOf h w))), w).
Proof.
  intros Hf. unfold sourcesUsing, metaList2. rewrite collaborator_ok by exact Hf.
  unfold gets, metaList2_rows. f_equal. f_equal.
  apply List.filter_ext. intros s. unfold rowMatches.
  cbn -[activeXcCondition Source_field].
  rewrite andb_true_r. reflexivity.
Qed.

(** C6. Both listings of active dependent sources -- the "check linked
    sources" query of [integrationDelete] and the query of
    [updateIntegrationSourceConfig] -- return exactly the rows of the sources
    table that reference the integration and whose delete flag is [false] or
    [null]; the two representations are treated alike, and a row whose flag is
    [true] is never returned. *)
Theorem active_listing_tristate env integration h w rows w' :
  (linkedSources env integration h w = (inr rows, w') ->
   forall s, In s rows <->
     In s (sources (storeOf h w))
     /\ Source.fk_workspace_id s = Integration.fk_workspace_id integration
     /\ Source.fk_integration_id s = Some (Integration.id integration)
     /\ (Source.deleted s = Some false \/ Source.deleted s = None))
  /\
  (sourcesUsing env integration h w = (inr rows, w') ->
   forall s, In s rows <->
     In s (sources (storeOf h w))
     /\ (Integration.fk_workspace_id integration = RootScopes_WORKSPACE env
         \/ Source.fk_workspace_id s = Integration.fk_workspace_id integration)
     /\ Source.fk_integration_id s = Some (Integration.id integration)
     /\ (Source.deleted s = Some false \/ Source.deleted s = None)).
Proof.
  split; intros Hrun s.
  - destruct (fault env (Op_metaList2 h BASES)) as [e|] eqn:Hf.
    { unfold linkedSources, metaList2 in Hrun.
      rewrite (collaborator_fault _ _ _ _ e Hf) in Hrun. discriminate. }
    rewrite linkedSources_rows in Hrun by exact Hf.
    match type of Hrun with
    | (inr ?l, _) = _ => assert (Hrows : rows = l) by congruence
    end.
    rewrite Hrows.
    rewrite List.filter_In. cbv beta.
    rewrite !andb_true_iff, String.eqb_eq, references_eval,
      activeXcCondition_true.
    tauto.
  - destruct (fault env (Op_metaList2 h BASES)) as [e|] eqn:Hf.
    { unfold sourcesUsing, metaList2 in Hrun.
      rewrite (collaborator_fault _ _ _ _ e Hf) in Hrun. discriminate. }
    rewrite sourcesUsing_rows in Hrun by exact Hf.
    match type of Hrun with
    | (inr ?l, _) = _ => assert (Hrows : rows = l) by congruence
    end.
    rewrite Hrows.
    rewrite List.filter_In. cbv beta.
    rewrite !andb_true_iff, orb_true_iff, !String.eqb_eq, references_eval,
      activeXcCondition_true.
    tauto.
Qed.

(** ** What the calls hand back *)

Ltac await_inr H :=
  let a := fresh "a" in
  let w := fresh "w" in
  let Hm := fresh "Hm" in
  apply andThen_inr in H; destruct H as (a & w & Hm & H).

Lemma resolve_inr {A} (a b : A) w w' : resolve a w = (inr b, w') -> b = a /\ w' = w.
Proof. unfold resolve. intros H. split; congruence. Qed.

(** C10. For an integration that exists, [integrationGetWithConfig] either
    returns the integration with [config] set to the decrypted connection
    config -- whatever [includeSources] is -- or fails with the error a
    collaborator raised; it never returns the integration without config. *)
Theorem integrationGetWithConfig_populates env ctx id includeSources w i :
  List.find (fun j => String.eqb (Integration.id j) id)
    (integrations (durable w)) = Some i ->
  match integrationGetWithConfig env ctx id includeSources w with
  | (inr r, _) => Integration.config r = Some (getConnectionConfig env i)
  | (inl e, _) => exists op, fault env op = Some e
  end.
Proof.
  intros Hfind.
  unfold integrationGetWithConfig, andThen, Integration_get,
    Integration_getConnectionConfig, Integration_getSources, collaborator,
    gets, resolve.
  destruct (fault env (Op_Integration_get id false RootMeta)) as [e|] eqn:Hget;
    [eauto|].
  cbn [storeOf]. rewrite Hfind.
  destruct (fault env (Op_getConnectionConfig (Integration.id i))) as [e|] eqn:Hcfg;
    [eauto|].
  destruct includeSources; [|reflexivity].
  cbn [setConfig Integration.id].
  destruct (fault env (Op_getSources (Integration.id i))) as [e|] eqn:Hsrc;
    [eauto|].
  reflexivity.
Qed.

(** C7. Whenever [integrationUpdate] or [integrationCreate] succeeds, the
    integration object it returns has its [config] field cleared. *)
Theorem mutating_calls_strip_config env ctx :
  (forall id body rq w r w',
      integrationUpdate env ctx id body rq w = (inr r, w') ->
      Integration.config r = None)
  /\
  (forall body logger rq w r w',
      integrationCreate env ctx body logger rq w = (inr r, w') ->
      Integration.config r = None).
Proof.
  split.
  - intros id body rq w r w' H. unfold integrationUpdate in H.
    do 4 await_inr H.
    apply resolve_inr in H as [-> _]. reflexivity.
  - intros body logger rq w r w' H. unfold integrationCreate in H.
    do 3 await_inr H.
    destruct (user rq) as [u|]; [|discriminate].
    do 2 await_inr H.
    apply resolve_inr in H as [-> _]. reflexivity.
Qed.

(** ** Cloning *)

Lemma truthy_Some x : x <> EmptyString -> truthy (Some x) = true.
Proof.
  intros H. unfold truthy. apply negb_true_iff. now apply String.eqb_neq.
Qed.

Lemma find_by_id_found id l (i : Integration.t) :
  List.find (fun j => String.eqb (Integration.id j) id) l = Some i ->
  In i l /\ Integration.id i = id.
Proof.
  intros H. apply List.find_some in H as [Hin Heq].
  split; [exact Hin|]. now apply String.eqb_eq.
Qed.

(** C5. [integrationCreate] with [copy_from_id = X] (a non-empty id, from a
    request that carries its user, no collaborator raising): when the
    integration X exists, exactly one row is added, titled with the original's
    title followed by ["_copy"], and its config is the original's decrypted
    connection config; when X does not exist, the call fails with
    [IntegrationNotFound X] and the world is left as it was. *)
Theorem integrationCreate_clone env ctx body logger rq w X :
  req_copy_from_id body = Some X ->
  X <> EmptyString ->
  fault env (Op_validatePayload IntegrationReq_schema body) = None ->
  fault env (Op_Integration_get X false RootMeta) = None ->
  match List.find (fun j => String.eqb (Integration.id j) X)
          (integrations (durable w)) with
  | Some original =>
      forall u,
        user rq = Some u ->
        fault env (Op_getConnectionConfig X) = None ->
        (forall b, fault env (Op_createIntegration b) = None) ->
        exists r w' created,
          integrationCreate env ctx body logger rq w = (inr r, w')
          /\ integrations (durable w') = integrations (durable w) ++ [created]
          /\ Integration.title created
             = String.append (Integration.title original) "_copy"
          /\ Integration.config created = Some (getConnectionConfig env original)
  | None =>
      integrationCreate env ctx body logger rq w = (inl (IntegrationNotFound X), w)
  end.
Proof.
  intros Hcopy HX Hval Hget.
  pose proof (truthy_Some X HX) as HtX.
  destruct (List.find _ (integrations (durable w))) as [original|] eqn:Hfind.
  - intros u Hu Hcfg Hcreate.
    pose proof (find_by_id_found _ _ _ Hfind) as [_ Hid].
    unfold integrationCreate, andThen, validatePayload, Integration_get,
      collaborator.
    rewrite Hval, Hcopy, HtX, Hget.
    unfold gets. cbn [storeOf resolve]. rewrite Hfind, Hid, HtX.
    unfold Integration_getConnectionConfig, collaborator. rewrite Hid, Hcfg.
    cbn [resolve].
    unfold Integration_createIntegration, collaborator.
    destruct logger; cbn [modify resolve user setLogged];
      rewrite ?Hu; rewrite Hcreate;
      eexists _, _, _; (split; [reflexivity|]); cbn; auto.
  - unfold integrationCreate, andThen, validatePayload, Integration_get,
      collaborator.
    rewrite Hval, Hcopy, HtX, Hget.
    unfold gets. cbn [storeOf resolve]. rewrite Hfind. reflexivity.
Qed.

(** ** Soft delete *)

Lemma markDeleted_idem id l : markDeleted id (markDeleted id l) = markDeleted id l.
Proof.
  unfold markDeleted. rewrite List.map_map. apply List.map_ext.
  intros j. destruct (String.eqb (Integration.id j) id) eqn:Hj.
  - cbn [setDeleted Integration.id]. rewrite Hj. reflexivity.
  - rewrite Hj. reflexivity.
Qed.

Lemma find_markDeleted id l :
  List.find (fun j => String.eqb (Integration.id j) id) (markDeleted id l)
  = option_map (setDeleted (Some true))
      (List.find (fun j => String.eqb (Integration.id j) id) l).
Proof.
  induction l as [|x l IH]; [reflexivity|].
  cbn. destruct (String.eqb (Integration.id x) id) eqn:Hx.
  - cbn [setDeleted Integration.id]. rewrite Hx. reflexivity.
  - rewrite Hx. exact IH.
Qed.

Lemma softDeleted_idem id w : softDeleted id (softDeleted id w) = softDeleted id w.
Proof.
  unfold softDeleted. cbn [durable setDurable integrations sources bases].
  fold (markDeleted id (integrations (durable w))).
  fold (markDeleted id (markDeleted id (integrations (durable w)))).
  rewrite markDeleted_idem. reflexivity.
Qed.

Lemma integrationSoftDelete_run env ctx id w :
  integrationSoftDelete env ctx id w =
  match fault env (Op_Integration_get id false RootMeta) with
  | Some e => (inl (BadRequest e), w)
  | None =>
      match List.find (fun j => String.eqb (Integration.id j) id)
              (integrations (durable w)) with
      | None => (inl (BadRequest (TypeError "softDelete")), w)
      | Some i =>
          match fault env (Op_Integration_softDelete id) with
          | Some e => (inl (BadRequest e), w)
          | None => (inr true, softDeleted id w)
          end
      end
  end.
Proof.
  unfold integrationSoftDelete, integrationSoftDelete_try, tryCatch, andThen,
    Integration_get, Integration_softDelete, collaborator, gets, reject.
  destruct (fault env (Op_Integration_get id false RootMeta)); [reflexivity|].
  cbn [storeOf].
  destruct (List.find _ (integrations (durable w))) as [i|] eqn:Hfind;
    [|reflexivity].
  apply find_by_id_found in Hfind as [_ ->].
  destruct (fault env (Op_Integration_softDelete id)); reflexivity.
Qed.

(** C9. [integrationSoftDelete] on an existing integration, no collaborator
    raising, returns [true] and changes nothing but the delete flag of the
    rows with that id; running it again from the state it left gives the same
    result and the same state; and whatever the [try] block raises reaches the
    caller wrapped in [BadRequest], the world being as it was before the
    call. *)
Theorem integrationSoftDelete_flag_idempotent_wrapped env ctx id :
  (forall w i,
      List.find (fun j => String.eqb (Integration.id j) id)
        (integrations (durable w)) = Some i ->
      fault env (Op_Integration_get id false RootMeta) = None ->
      fault env (Op_Integration_softDelete id) = None ->
      integrationSoftDelete env ctx id w = (inr true, softDeleted id w))
  /\
  (forall w,
      integrationSoftDelete env ctx id (snd (integrationSoftDelete env ctx id w))
      = integrationSoftDelete env ctx id w)
  /\
  (forall w e w1,
      integrationSoftDelete_try env ctx id w = (inl e, w1) ->
      integrationSoftDelete env ctx id w = (inl (BadRequest e), w) /\ w1 = w).
Proof.
  split; [|split].
  - intros w i Hfind Hget Hsoft.
    rewrite integrationSoftDelete_run, Hget, Hfind, Hsoft. reflexivity.
  - intros w. rewrite (integrationSoftDelete_run env ctx id w).
    destruct (fault env (Op_Integration_get id false RootMeta)) as [e|] eqn:Hget.
    { cbn [snd]. rewrite integrationSoftDelete_run, Hget. reflexivity. }
    destruct (List.find _ (integrations (durable w))) as [i|] eqn:Hfind.
    2:{ cbn [snd]. rewrite integrationSoftDelete_run, Hget, Hfind. reflexivity. }
    destruct (fault env (Op_Integration_softDelete id)) as [e|] eqn:Hsoft.
    { cbn [snd]. rewrite integrationSoftDelete_run, Hget, Hfind, Hsoft.
      reflexivity. }
    cbn [snd]. rewrite integrationSoftDelete_run, Hget, Hsoft.
    unfold softDeleted at 1. cbn [durable setDurable integrations].
    fold (markDeleted id (integrations (durable w))).
    rewrite find_markDeleted, Hfind. cbn [option_map].
    rewrite softDeleted_idem. reflexivity.
  - intros w e w1 Htry.
    unfold integrationSoftDelete, tryCatch, andThen. rewrite Htry.
    cbn [reject].
    assert (w1 = w) as ->; [|split; reflexivity].
    unfold integrationSoftDelete_try, andThen, Integration_get,
      Integration_softDelete, collaborator, gets, reject, modify in Htry.
    destruct (fault env (Op_Integration_get id false RootMeta));
      [congruence|].
    destruct (List.find _ _); [|congruence].
    destruct (fault env (Op_Integration_softDelete _)); congruence.
Qed.

(** ** Hard delete: what a transaction leaves behind *)

Lemma keepsDurable_failsClean {A} (m : M A) : keepsDurable m -> failsClean m.
Proof. intros H w e w' Hm. specialize (H w). now rewrite Hm in H. Qed.

Lemma keepsDurable_resolve {A} (a : A) : keepsDurable (resolve a).
Proof. intros w. reflexivity. Qed.

Lemma keepsDurable_reject {A} e : keepsDurable (@reject A e).
Proof. intros w. reflexivity. Qed.

Lemma keepsDurable_gets {A} (f : World -> A) : keepsDurable (gets f).
Proof. intros w. reflexivity. Qed.

Lemma keepsDurable_modify f :
  (forall w, durable (f w) = durable w) -> keepsDurable (modify f).
Proof. intros H w. apply H. Qed.

Lemma keepsDurable_andThen {A B} (m : M A) (k : A -> M B) :
  keepsDurable m -> (forall a, keepsDurable (k a)) -> keepsDurable (andThen m k).
Proof.
  intros Hm Hk w. unfold andThen. specialize (Hm w).
  destruct (m w) as [[e|a] w1]; cbn [snd] in *; [exact Hm|].
  rewrite Hk. exact Hm.
Qed.

Lemma keepsDurable_collaborator env {A} op (m : M A) :
  keepsDurable m -> keepsDurable (collaborator env op m).
Proof.
  intros Hm w. unfold collaborator. destruct (fault env op); [reflexivity|apply Hm].
Qed.

Lemma keepsDurable_forOf {A} (l : list A) (f : A -> M unit) :
  (forall x, keepsDurable (f x)) -> keepsDurable (forOf l f).
Proof.
  intros Hf. induction l as [|x l IH]; cbn [forOf].
  - apply keepsDurable_resolve.
  - apply keepsDurable_andThen; auto.
Qed.

Lemma keepsDurable_promiseAll {A B} (l : list A) (f : A -> M B) :
  (forall x, keepsDurable (f x)) -> keepsDurable (promiseAll l f).
Proof.
  intros Hf. induction l as [|x l IH]; cbn [promiseAll].
  - apply keepsDurable_resolve.
  - apply keepsDurable_andThen; [auto|]. intros y.
    apply keepsDurable_andThen; [exact IH|]. intros ys.
    apply keepsDurable_resolve.
Qed.

Lemma failsClean_andThen {A B} (m : M A) (k : A -> M B) :
  keepsDurable m -> (forall a, failsClean (k a)) -> failsClean (andThen m k).
Proof.
  intros Hm Hk w e w' H. specialize (Hm w).
  apply andThen_inl in H as [H|(a & w1 & H1 & H2)].
  - now rewrite H in Hm.
  - rewrite H1 in Hm. cbn [snd] in Hm. rewrite <- Hm. eapply Hk, H2.
Qed.

Lemma failsClean_commit env : failsClean (commit env).
Proof.
  intros w e w' H. unfold commit, collaborator, modify in H.
  destruct (fault env Op_commit); congruence.
Qed.

Create HintDb durable discriminated.

#[export] Hint Resolve keepsDurable_resolve keepsDurable_reject keepsDurable_gets
  keepsDurable_collaborator keepsDurable_forOf keepsDurable_promiseAll : durable.

Lemma keepsDurable_Integration_get env ctx id flag h :
  keepsDurable (Integration_get env ctx id flag h).
Proof. unfold Integration_get. auto with durable. Qed.

Lemma keepsDurable_linkedSources env i h : keepsDurable (linkedSources env i h).
Proof. unfold linkedSources, metaList2. auto with durable. Qed.

Lemma keepsDurable_Base_get env ws b id h : keepsDurable (Base_get env ws b id h).
Proof. unfold Base_get. auto with durable. Qed.

Lemma keepsDurable_baseDelete_trx env ws b id rq :
  keepsDurable (baseDelete env ws b id rq TrxMeta).
Proof.
  unfold baseDelete. apply keepsDurable_collaborator, keepsDurable_modify.
  intros w. reflexivity.
Qed.

Lemma keepsDurable_Integration_delete_trx env i :
  keepsDurable (Integration_delete env i TrxMeta).
Proof.
  unfold Integration_delete. apply keepsDurable_collaborator, keepsDurable_modify.
  intros w. reflexivity.
Qed.

Lemma keepsDurable_emit name i rq : keepsDurable (emit name i rq).
Proof. unfold emit. apply keepsDurable_modify. intros w. reflexivity. Qed.

(** Until [commit] succeeds, nothing the [try] block does reaches the durable
    tables. *)
Lemma failsClean_integrationDelete_try env ctx id rq force :
  failsClean (integrationDelete_try env ctx id rq force TrxMeta).
Proof.
  unfold integrationDelete_try.
  apply failsClean_andThen; [apply keepsDurable_Integration_get|].
  intros [i|]; [|apply keepsDurable_failsClean, keepsDurable_reject].
  apply failsClean_andThen; [apply keepsDurable_linkedSources|]. intros rows.
  apply failsClean_andThen.
  { destruct ((0 <? length rows)%nat && negb force).
    - apply keepsDurable_andThen.
      + apply keepsDurable_promiseAll. intros s. apply keepsDurable_Base_get.
      + intros bs. unfold NcError_integrationLinkedWithMultiple.
        destruct (forallb _ bs); apply keepsDurable_reject.
    - apply keepsDurable_resolve. }
  intros _. apply failsClean_andThen.
  { apply keepsDurable_forOf. intros s. apply keepsDurable_baseDelete_trx. }
  intros _. apply failsClean_andThen;
    [apply keepsDurable_Integration_delete_trx|].
  intros _. apply failsClean_andThen; [apply keepsDurable_emit|].
  intros _. apply failsClean_commit.
Qed.

(** C4. Once the transaction is open, whatever the [try] block of
    [integrationDelete] raises -- a failed lookup, the refusal, a failure in
    the middle of the cascade, a failed commit -- the call fails with that
    error wrapped in [BadRequest], the transaction is dropped, and the durable
    tables (the integration row and every source row) are exactly as before
    the call. *)
Theorem integrationDelete_rolls_back env ctx id rq force w e w1 :
  fault env Op_startTransaction = None ->
  integrationDelete_try env ctx id rq force TrxMeta
    (setTrx (Some (durable w)) w) = (inl e, w1) ->
  exists w2,
    integrationDelete env ctx id rq force w = (inl (BadRequest e), w2)
    /\ durable w2 = durable w
    /\ trx w2 = None.
Proof.
  intros Hstart Htry.
  exists (setTrx None w1).
  split; [|split; [|reflexivity]].
  - unfold integrationDelete, andThen, startTransaction, collaborator, tryCatch.
    rewrite Hstart, Htry. reflexivity.
  - cbn [durable setTrx].
    now rewrite (failsClean_integrationDelete_try _ _ _ _ _ _ _ _ Htry).
Qed.

(** ** Propagation to the dependent sources *)

Lemma forOf_app_fail {A} (pre post : list A) (x : A) (f : A -> M unit) w w1 e w2 :
  forOf pre f w = (inr tt, w1) ->
  f x w1 = (inl e, w2) ->
  forOf (pre ++ x :: post) f w = (inl e, w2).
Proof.
  revert w. induction pre as [|y pre IH]; intros w Hpre Hx.
  - cbn in Hpre. injection Hpre as <-. cbn [app forOf].
    now apply andThen_fail.
  - cbn [app forOf] in *.
    apply andThen_inr in Hpre as ([] & w' & Hy & Hrest).
    rewrite (andThen_step _ _ _ _ _ Hy). now apply IH.
Qed.

Lemma refreshSource_local env integration s w :
  jobsRedisAvailable w = false ->
  fault env (Op_NocoCache_update (cacheKey env (Source.id s))) = None ->
  fault env (Op_deleteAwait (Source.id s)) = None ->
  refreshSource env integration s w
  = (inr tt, refreshedLocally env integration s w).
Proof.
  intros Hbus Hcache Hconn.
  unfold refreshSource, andThen, NocoCache_update,
    NcConnectionMgrv2_deleteAwait, collaborator, modify, gets.
  rewrite Hcache, Hconn. cbn [jobsRedisAvailable setCache setConnectionRefs].
  rewrite Hbus. reflexivity.
Qed.

Lemma forOf_refresh_local env integration rows :
  (forall key, fault env (Op_NocoCache_update key) = None) ->
  (forall id, fault env (Op_deleteAwait id) = None) ->
  forall w,
    jobsRedisAvailable w = false ->
    exists w',
      forOf rows (refreshSource env integration) w = (inr tt, w')
      /\ durable w' = durable w
      /\ workerCommands w' = workerCommands w
      /\ primaryCommands w' = primaryCommands w
      /\ events w' = events w
      /\ (forall k, cache w' !! k =
                    if keyIn env k rows
                    then setIntegrationConfig (Integration.config integration)
                           <$> (cache w !! k)
                    else cache w !! k)
      /\ (forall p, p ∈ connectionRefs w' <->
                    p ∈ connectionRefs w /\ ~ In p (List.map sourceKey rows)).
Proof.
  intros Hcache Hconn.
  induction rows as [|s rows IH]; intros w Hbus.
  - exists w. cbn. repeat split; auto; tauto.
  - cbn [forOf].
    rewrite (andThen_step _ _ _ _ _
               (refreshSource_local env integration s w Hbus
                  (Hcache _) (Hconn _))).
    destruct (IH (refreshedLocally env integration s w)) as
      (w' & Hrun & Hd & Hw & Hp & He & Hc & Hr); [exact Hbus|].
    exists w'. split; [exact Hrun|].
    split; [exact Hd|]. split; [exact Hw|]. split; [exact Hp|].
    split; [exact He|]. split.
    + intros k. rewrite Hc. cbn [keyIn existsb].
      fold (keyIn env k rows).
      unfold refreshedLocally. cbn [cache setCache setConnectionRefs].
      destruct (String.eqb (cacheKey env (Source.id s)) k) eqn:Hk.
      * apply String.eqb_eq in Hk. subst k. rewrite lookup_alter_eq.
        cbn [orb]. destruct (keyIn env _ rows); [|reflexivity].
        destruct (cache w !! cacheKey env (Source.id s)); reflexivity.
      * apply String.eqb_neq in Hk. rewrite lookup_alter_ne by exact Hk.
        reflexivity.
    + intros p. rewrite Hr. unfold refreshedLocally.
      cbn [connectionRefs setConnectionRefs List.map In].
      rewrite elem_of_difference, elem_of_singleton.
      split.
      * intros [[Hin Hne] Hnot]. split; [exact Hin|].
        intros [Heq|Hin']; [|tauto]. now apply Hne.
      * intros [Hin Hnot]. split; [split; [exact Hin|]|tauto].
        intros Heq. apply Hnot. left. now symmetry.
Qed.

Lemma keyIn_of_In env rows s :
  In s rows -> keyIn env (cacheKey env (Source.id s)) rows = true.
Proof.
  intros Hin. unfold keyIn. apply List.existsb_exists.
  exists s. split; [exact Hin|apply String.eqb_refl].
Qed.

Lemma updateIntegrationSourceConfig_local env integration w :
  jobsRedisAvailable w = false ->
  fault env (Op_metaList2 RootMeta BASES) = None ->
  (forall key, fault env (Op_NocoCache_update key) = None) ->
  (forall id, fault env (Op_deleteAwait id) = None) ->
  exists w',
    updateIntegrationSourceConfig env integration RootMeta w = (inr tt, w')
    /\ workerCommands w' = workerCommands w
    /\ primaryCommands w' = primaryCommands w
    /\ (forall s, In s (usingRows env integration (durable w)) ->
          cache w' !! cacheKey env (Source.id s)
          = setIntegrationConfig (Integration.config integration)
              <$> (cache w !! cacheKey env (Source.id s))
          /\ sourceKey s ∉ connectionRefs w').
Proof.
  intros Hbus Hlist Hcache Hconn.
  pose proof (sourcesUsing_rows env integration RootMeta w Hlist) as Hrows.
  fold (usingRows env integration (storeOf RootMeta w)) in Hrows.
  cbn [storeOf] in Hrows.
  destruct (forOf_refresh_local env integration
              (usingRows env integration (durable w)) Hcache Hconn w Hbus)
    as (w' & Hrun & _ & Hw & Hp & _ & Hc & Hr).
  exists w'. split.
  { unfold updateIntegrationSourceConfig.
    rewrite (andThen_step _ _ _ _ _ Hrows). exact Hrun. }
  split; [exact Hw|]. split; [exact Hp|].
  intros s Hs. split.
  - rewrite Hc, keyIn_of_In by assumption. reflexivity.
  - intros Hin. apply Hr in Hin as [_ Hnot]. apply Hnot.
    now apply List.in_map.
Qed.

(** C8. With the command bus unavailable, propagation still goes through
    every dependent source: it succeeds, every source of the table that
    references the integration and is not flagged deleted has its cached
    [integration_config] patched and its connection reference released, and
    no RELEASE command is put on the worker or the primary channel; and the
    [integrationUpdate] around it returns the integration -- whatever the bus
    would have done had it been called. *)
Theorem propagation_without_bus env integration w :
  jobsRedisAvailable w = false ->
  fault env (Op_metaList2 RootMeta BASES) = None ->
  (forall key, fault env (Op_NocoCache_update key) = None) ->
  (forall id, fault env (Op_deleteAwait id) = None) ->
  (exists w',
      updateIntegrationSourceConfig env integration RootMeta w = (inr tt, w')
      /\ workerCommands w' = workerCommands w
      /\ primaryCommands w' = primaryCommands w
      /\ (forall s, In s (usingRows env integration (durable w)) ->
            cache w' !! cacheKey env (Source.id s)
            = setIntegrationConfig (Integration.config integration)
                <$> (cache w !! cacheKey env (Source.id s))
            /\ sourceKey s ∉ connectionRefs w'))
  /\
  (forall ctx id body rq w0,
      fault env (Op_validatePayload IntegrationReq_schema body) = None ->
      Integration_updateIntegration env ctx id (withId id (spreadReq body)) w0
      = (inr integration, w) ->
      exists w',
        integrationUpdate env ctx id body rq w0
        = (inr (setConfig None integration), w')).
Proof.
  intros Hbus Hlist Hcache Hconn.
  pose proof (updateIntegrationSourceConfig_local env integration w
                Hbus Hlist Hcache Hconn) as Hlocal.
  split; [exact Hlocal|].
  destruct Hlocal as (w' & Hrun & _).
  intros ctx id body rq w0 Hval Hupd.
  eexists. unfold integrationUpdate.
  unfold andThen at 1. unfold validatePayload, collaborator.
  rewrite Hval. cbn [resolve].
  rewrite (andThen_step _ _ _ _ _ Hupd).
  rewrite (andThen_step _ _ _ _ _ Hrun).
  reflexivity.
Qed.

(** C2. After the integration row has been updated, [integrationUpdate]
    surfaces a failure of the dependent-source listing, and equally the first
    failure of a cache patch, a connection release or a broadcast: the loop
    stops at that source, the sources after it are not visited, and the call
    fails with that error in the state the failing step left. *)
Theorem integrationUpdate_propagation_fails_fast env ctx id body rq w integration w0 :
  fault env (Op_validatePayload IntegrationReq_schema body) = None ->
  Integration_updateIntegration env ctx id (withId id (spreadReq body)) w
  = (inr integration, w0) ->
  (forall e w1,
      sourcesUsing env integration RootMeta w0 = (inl e, w1) ->
      integrationUpdate env ctx id body rq w = (inl e, w1))
  /\
  (forall pre s post w1 e w2,
      sourcesUsing env integration RootMeta w0 = (inr (pre ++ s :: post), w0) ->
      forOf pre (refreshSource env integration) w0 = (inr tt, w1) ->
      refreshSource env integration s w1 = (inl e, w2) ->
      integrationUpdate env ctx id body rq w = (inl e, w2)).
Proof.
  intros Hval Hupd.
  assert (Hstart : forall k : Integration.t -> M Integration.t,
             andThen (validatePayload env IntegrationReq_schema body)
               (fun _ => andThen
                  (Integration_updateIntegration env ctx id
                     (withId id (spreadReq body))) k) w
             = k integration w0).
  { intros k. unfold andThen at 1. unfold validatePayload, collaborator.
    rewrite Hval. cbn [resolve]. now apply andThen_step. }
  split.
  - intros e w1 Hlist. unfold integrationUpdate. rewrite Hstart.
    apply andThen_fail. unfold updateIntegrationSourceConfig.
    now apply andThen_fail.
  - intros pre s post w1 e w2 Hlist Hpre Hs.
    unfold integrationUpdate. rewrite Hstart.
    apply andThen_fail. unfold updateIntegrationSourceConfig.
    rewrite (andThen_step _ _ _ _ _ Hlist).
    eapply forOf_app_fail; eassumption.
Qed.

(** The cache patch of the first source fails: the call fails, and the
    sources after it keep their stale config and their connections. *)
Example propagation_stops_at_first_failure :
  let run := integrationUpdate (Scenario.env (Scenario.cacheDownFor "base:src1"))
               Scenario.ctx "int1" Scenario.newConfig Scenario.rq Scenario.world in
  fst run = inl (Failure "cache down")
  /\ Source.integration_config <$> (cache (snd run) !! "base:src2") = Some (Some "sealed")
  /\ Source.integration_config <$> (cache (snd run) !! "base:src3") = Some (Some "sealed")
  /\ elements (connectionRefs (snd run)) = elements (connectionRefs Scenario.world)
  /\ events (snd run) = []
  /\ List.map Integration.config (integrations (durable (snd run))) = [Some "resealed"].
Proof. vm_compute. repeat split. Qed.

(** C2 does not hold as a best-effort fan-out: with the cache patch of the
    first of three dependent sources failing, [integrationUpdate] fails
    although the listing was read. *)
Lemma propagation_not_best_effort : ~ propagation_is_best_effort.
Proof.
  intros H.
  destruct (H (Scenario.env (Scenario.cacheDownFor "base:src1"))
              Scenario.ctx "int1" Scenario.newConfig Scenario.rq Scenario.world)
    as [Hres _].
  vm_compute in Hres. discriminate Hres.
Qed.

(** Once the transaction is open, [integrationDelete] fails with nothing
    but [BadRequest]. *)
Lemma integrationDelete_failure_class env ctx id rq force w err w' :
  fault env Op_startTransaction = None ->
  integrationDelete env ctx id rq force w = (inl err, w') ->
  exists e, err = BadRequest e.
Proof.
  intros Hstart H.
  unfold integrationDelete, andThen, startTransaction, collaborator, tryCatch in H.
  rewrite Hstart in H.
  destruct (integrationDelete_try env ctx id rq force TrxMeta _) as [[e|[]] w1].
  - cbn in H. exists e. congruence.
  - cbn in H. discriminate H.
Qed.

(** C1. Three active sources depend on the integration and the delete is
    not forced: the refusal raised inside the [try] block is caught by its own
    handler, so the caller gets a [BadRequest] around it and not the
    [IntegrationLinkedWithMultiple] error; the durable tables are unchanged. *)
Theorem integrationDelete_refusal_is_wrapped :
  let run := integrationDelete (Scenario.env Scenario.faultless)
               Scenario.ctx "int1" Scenario.rq false Scenario.world in
  fst run = inl (BadRequest
                   (IntegrationLinkedWithMultiple
                      [Some Scenario.b1; Some Scenario.b2; Some Scenario.b3]
                      [Scenario.s1; Scenario.s2; Scenario.s3]))
  /\ (forall bs ss, fst run <> inl (IntegrationLinkedWithMultiple bs ss))
  /\ durable (snd run) = durable Scenario.world.
Proof.
  vm_compute. split; [reflexivity|]. split; [|reflexivity].
  intros bs ss H. discriminate H.
Qed.

(** C3. The commit of a delete fails: the call fails and the durable tables
    are unchanged, yet the INTEGRATION_DELETE event has been emitted, because
    [emit] stands before [commit] in the [try] block. *)
Theorem integrationDelete_emits_before_commit :
  let run := integrationDelete (Scenario.env Scenario.commitFails)
               Scenario.ctx "int1" Scenario.rq false Scenario.lonely in
  fst run = inl (BadRequest (Failure "commit failed"))
  /\ durable (snd run) = durable Scenario.lonely
  /\ events (snd run)
     = [ {| ev_name := INTEGRATION_DELETE;
            ev_integration := Scenario.pg;
            ev_req := Scenario.rq;
            ev_user := Some (User.mk "u1") |} ].
Proof. vm_compute. repeat split. Qed.

(** ** The calls on the scenarios *)

(** A forced delete removes the integration and its three active sources,
    emits the event and commits. *)
Example integrationDelete_forced_cascade :
  let run := integrationDelete (Scenario.env Scenario.faultless)
               Scenario.ctx "int1" Scenario.rq true Scenario.world in
  fst run = inr true
  /\ integrations (durable (snd run)) = []
  /\ sources (durable (snd run)) = [Scenario.s4]
  /\ trx (snd run) = None
  /\ List.map ev_name (events (snd run)) = [INTEGRATION_DELETE].
Proof. vm_compute. repeat split. Qed.

(** A delete of an integration nobody uses needs no force. *)
Example integrationDelete_unused :
  let run := integrationDelete (Scenario.env Scenario.faultless)
               Scenario.ctx "int1" Scenario.rq false Scenario.lonely in
  fst run = inr true /\ integrations (durable (snd run)) = [].
Proof. vm_compute. repeat split. Qed.

(** An update patches the cache of the three active sources, releases their
    connections, tells the workers and the primary, and emits the event with
    the config stripped. *)
Example integrationUpdate_propagates :
  let run := integrationUpdate (Scenario.env Scenario.faultless)
               Scenario.ctx "int1" Scenario.newConfig Scenario.rq Scenario.world in
  fst run = inr (setConfig None Scenario.pgResealed)
  /\ Source.integration_config <$> (cache (snd run) !! "base:src1") = Some (Some "resealed")
  /\ Source.integration_config <$> (cache (snd run) !! "base:src3") = Some (Some "resealed")
  /\ elements (connectionRefs (snd run)) = []
  /\ workerCommands (snd run) = [(RELEASE, "src1"); (RELEASE, "src2"); (RELEASE, "src3")]
  /\ primaryCommands (snd run) = [(RELEASE, "src1"); (RELEASE, "src2"); (RELEASE, "src3")]
  /\ List.map (fun e => Integration.config (ev_integration e)) (events (snd run)) = [None].
Proof. vm_compute. repeat split. Qed.

(** Without a bus, and with bus calls that would fail, an update still
    patches the cache of the three active sources and drops their
    connections; nothing is sent. *)
Example integrationUpdate_without_bus :
  let run := integrationUpdate (Scenario.env Scenario.busBroken)
               Scenario.ctx "int1" Scenario.newConfig Scenario.rq
               Scenario.worldNoBus in
  fst run = inr (setConfig None Scenario.pgResealed)
  /\ Source.integration_config <$> (cache (snd run) !! "base:src1") = Some (Some "resealed")
  /\ Source.integration_config <$> (cache (snd run) !! "base:src2") = Some (Some "resealed")
  /\ Source.integration_config <$> (cache (snd run) !! "base:src3") = Some (Some "resealed")
  /\ elements (connectionRefs (snd run)) = []
  /\ workerCommands (snd run) = []
  /\ primaryCommands (snd run) = [].
Proof. vm_compute. repeat split. Qed.

(** ** The theorems at work *)

Lemma active_listing_tristate_witness :
  (forall s, In s [Scenario.s1; Scenario.s2; Scenario.s3] <->
     In s (sources Scenario.tables)
     /\ Source.fk_workspace_id s = "ws1"
     /\ Source.fk_integration_id s = Some "int1"
     /\ (Source.deleted s = Some false \/ Source.deleted s = None))
  /\
  (forall s, In s [Scenario.s1; Scenario.s2; Scenario.s3] <->
     In s (sources Scenario.tables)
     /\ ("ws1" = "workspace" \/ Source.fk_workspace_id s = "ws1")
     /\ Source.fk_integration_id s = Some "int1"
     /\ (Source.deleted s = Some false \/ Source.deleted s = None)).
Proof.
  destruct (active_listing_tristate (Scenario.env Scenario.faultless)
              Scenario.pg RootMeta Scenario.world
              [Scenario.s1; Scenario.s2; Scenario.s3] Scenario.world)
    as [Hdelete Hupdate].
  split.
  - apply Hdelete. reflexivity.
  - apply Hupdate. reflexivity.
Defined.

Lemma integrationGetWithConfig_populates_witness :
  match integrationGetWithConfig (Scenario.env Scenario.faultless)
          Scenario.ctx "int1" true Scenario.world with
  | (inr r, _) => Integration.config r = Some "plain:sealed"
  | (inl e, _) => exists op, Scenario.faultless op = Some e
  end.
Proof.
  apply (integrationGetWithConfig_populates (Scenario.env Scenario.faultless)
           Scenario.ctx "int1" true Scenario.world Scenario.pg).
  reflexivity.
Defined.

Lemma mutating_calls_strip_config_witness :
  (exists r w',
      integrationUpdate (Scenario.env Scenario.faultless) Scenario.ctx "int1"
        Scenario.newConfig Scenario.rq Scenario.world = (inr r, w')
      /\ Integration.config r = None)
  /\
  (exists r w',
      integrationCreate (Scenario.env Scenario.faultless) Scenario.ctx
        (Scenario.cloneOf "int1") true Scenario.rq Scenario.world = (inr r, w')
      /\ Integration.config r = None).
Proof.
  destruct (mutating_calls_strip_config (Scenario.env Scenario.faultless)
              Scenario.ctx) as [Hupdate Hcreate].
  split.
  - eexists _, _. split; [vm_compute; reflexivity|].
    eapply (Hupdate "int1" Scenario.newConfig Scenario.rq Scenario.world).
    vm_compute. reflexivity.
  - eexists _, _. split; [vm_compute; reflexivity|].
    eapply (Hcreate (Scenario.cloneOf "int1") true Scenario.rq Scenario.world).
    vm_compute. reflexivity.
Defined.

Lemma integrationCreate_clone_witness :
  (exists r w' created,
      integrationCreate (Scenario.env Scenario.faultless) Scenario.ctx
        (Scenario.cloneOf "int1") false Scenario.rq Scenario.world = (inr r, w')
      /\ integrations (durable w') = integrations (durable Scenario.world) ++ [created]
      /\ Integration.title created = "PG_copy"
      /\ Integration.config created = Some "plain:sealed")
  /\
  integrationCreate (Scenario.env Scenario.faultless) Scenario.ctx
    (Scenario.cloneOf "int9") false Scenario.rq Scenario.world
  = (inl (IntegrationNotFound "int9"), Scenario.world).
Proof.
  assert (Hne : forall x : string, String.eqb x EmptyString = false -> x <> EmptyString)
    by (intros x Hx; now apply String.eqb_neq).
  split.
  - pose proof (integrationCreate_clone (Scenario.env Scenario.faultless)
                  Scenario.ctx (Scenario.cloneOf "int1") false Scenario.rq
                  Scenario.world "int1" eq_refl (Hne "int1" eq_refl)
                  eq_refl eq_refl) as H.
    simpl List.find in H.
    exact (H (User.mk "u1") eq_refl eq_refl (fun _ => eq_refl)).
  - pose proof (integrationCreate_clone (Scenario.env Scenario.faultless)
                  Scenario.ctx (Scenario.cloneOf "int9") false Scenario.rq
                  Scenario.world "int9" eq_refl (Hne "int9" eq_refl)
                  eq_refl eq_refl) as H.
    simpl List.find in H.
    exact H.
Defined.

Lemma integrationSoftDelete_flag_idempotent_wrapped_witness :
  integrationSoftDelete (Scenario.env Scenario.faultless) Scenario.ctx "int1"
    Scenario.world = (inr true, softDeleted "int1" Scenario.world)
  /\
  integrationSoftDelete (Scenario.env Scenario.softDeleteFails) Scenario.ctx "int1"
    Scenario.world = (inl (BadRequest (Failure "write failed")), Scenario.world).
Proof.
  split.
  - apply (proj1 (integrationSoftDelete_flag_idempotent_wrapped
                    (Scenario.env Scenario.faultless) Scenario.ctx "int1")
             Scenario.world Scenario.pg); reflexivity.
  - apply (proj2 (proj2 (integrationSoftDelete_flag_idempotent_wrapped
                           (Scenario.env Scenario.softDeleteFails)
                           Scenario.ctx "int1"))
             Scenario.world (Failure "write failed") Scenario.world).
    reflexivity.
Defined.

Lemma integrationDelete_rolls_back_witness :
  exists w2,
    integrationDelete (Scenario.env (Scenario.cascadeFailsAt "src2"))
      Scenario.ctx "int1" Scenario.rq true Scenario.world
    = (inl (BadRequest (Failure "cascade failed")), w2)
    /\ durable w2 = durable Scenario.world
    /\ trx w2 = None.
Proof.
  eapply (integrationDelete_rolls_back
            (Scenario.env (Scenario.cascadeFailsAt "src2"))
            Scenario.ctx "int1" Scenario.rq true Scenario.world).
  - reflexivity.
  - vm_compute. reflexivity.
Defined.

Lemma propagation_without_bus_witness :
  (exists w',
      updateIntegrationSourceConfig (Scenario.env Scenario.busBroken)
        Scenario.pgResealed RootMeta Scenario.worldNoBusResealed = (inr tt, w')
      /\ workerCommands w' = []
      /\ primaryCommands w' = []
      /\ (forall s, In s [Scenario.s1; Scenario.s2; Scenario.s3] ->
            cache w' !! String.append "base:" (Source.id s)
            = setIntegrationConfig (Some "resealed")
                <$> (cache Scenario.worldNoBusResealed
                       !! String.append "base:" (Source.id s))
            /\ sourceKey s ∉ connectionRefs w'))
  /\
  (exists w',
      integrationUpdate (Scenario.env Scenario.busBroken) Scenario.ctx "int1"
        Scenario.newConfig Scenario.rq Scenario.worldNoBus
      = (inr (setConfig None Scenario.pgResealed), w')).
Proof.
  destruct (propagation_without_bus (Scenario.env Scenario.busBroken)
              Scenario.pgResealed Scenario.worldNoBusResealed)
    as [Hlocal Hupdate].
  - reflexivity.
  - reflexivity.
  - intros key. reflexivity.
  - intros id. reflexivity.
  - split; [exact Hlocal|].
    apply (Hupdate Scenario.ctx "int1" Scenario.newConfig Scenario.rq
             Scenario.worldNoBus).
    + reflexivity.
    + vm_compute. reflexivity.
Defined.

Lemma integrationUpdate_propagation_fails_fast_witness :
  (exists w1,
      integrationUpdate (Scenario.env Scenario.listingFails)
        Scenario.ctx "int1" Scenario.newConfig Scenario.rq Scenario.world
      = (inl (Failure "listing failed"), w1))
  /\
  (exists w2,
      integrationUpdate (Scenario.env (Scenario.releaseFailsFor "src2"))
        Scenario.ctx "int1" Scenario.newConfig Scenario.rq Scenario.world
      = (inl (Failure "release failed"), w2)
      /\ Source.integration_config <$> (cache w2 !! "base:src3")
         = Some (Some "sealed")).
Proof.
  split.
  - eexists.
    eapply (proj1 (integrationUpdate_propagation_fails_fast
                     (Scenario.env Scenario.listingFails)
                     Scenario.ctx "int1" Scenario.newConfig Scenario.rq
                     Scenario.world _ _ eq_refl eq_refl)).
    vm_compute. reflexivity.
  - eexists. split.
    + eapply (proj2 (integrationUpdate_propagation_fails_fast
                       (Scenario.env (Scenario.releaseFailsFor "src2"))
                       Scenario.ctx "int1" Scenario.newConfig Scenario.rq
                       Scenario.world _ _ eq_refl eq_refl)
                [Scenario.s1] Scenario.s2 [Scenario.s3]).
      * vm_compute. reflexivity.
      * vm_compute. reflexivity.
      * vm_compute. reflexivity.
    + vm_compute. reflexivity.
Defined.

(** * Further properties of the service *)

(** ** Footprints of computations *)

Lemma keeps_failsKeeping {A B} (proj : World -> B) (m : M A) :
  keeps proj m -> failsKeeping proj m.
Proof. intros H w e w' Hm. specialize (H w). now rewrite Hm in H. Qed.

Lemma keeps_resolve {A B} (proj : World -> B) (a : A) : keeps proj (resolve a).
Proof. intros w. reflexivity. Qed.

Lemma keeps_reject {A B} (proj : World -> B) e : keeps proj (@reject A e).
Proof. intros w. reflexivity. Qed.

Lemma keeps_gets {A B} (proj : World -> B) (f : World -> A) : keeps proj (gets f).
Proof. intros w. reflexivity. Qed.

Lemma keeps_modify {B} (proj : World -> B) f :
  (forall w, proj (f w) = proj w) -> keeps proj (modify f).
Proof. intros H w. apply H. Qed.

Lemma keeps_andThen {A B C} (proj : World -> C) (m : M A) (k : A -> M B) :
  keeps proj m -> (forall a, keeps proj (k a)) -> keeps proj (andThen m k).
Proof.
  intros Hm Hk w. unfold andThen. specialize (Hm w).
  destruct (m w) as [[e|a] w1]; cbn [snd] in *; [exact Hm|].
  rewrite Hk. exact Hm.
Qed.

Lemma keeps_collaborator env {A B} (proj : World -> B) op (m : M A) :
  keeps proj m -> keeps proj (collaborator env op m).
Proof.
  intros Hm w. unfold collaborator. destruct (fault env op); [reflexivity|apply Hm].
Qed.

Lemma keeps_forOf {A B} (proj : World -> B) (l : list A) (f : A -> M unit) :
  (forall x, keeps proj (f x)) -> keeps proj (forOf l f).
Proof.
  intros Hf. induction l as [|x l IH]; cbn [forOf].
  - apply keeps_resolve.
  - apply keeps_andThen; auto.
Qed.

Lemma keeps_promiseAll {A B C} (proj : World -> C) (l : list A) (f : A -> M B) :
  (forall x, keeps proj (f x)) -> keeps proj (promiseAll l f).
Proof.
  intros Hf. induction l as [|x l IH]; cbn [promiseAll].
  - apply keeps_resolve.
  - apply keeps_andThen; [auto|]. intros y.
    apply keeps_andThen; [exact IH|]. intros ys. apply keeps_resolve.
Qed.

Lemma failsKeeping_andThen {A B C} (proj : World -> C) (m : M A) (k : A -> M B) :
  keeps proj m -> (forall a, failsKeeping proj (k a)) ->
  failsKeeping proj (andThen m k).
Proof.
  intros Hm Hk w e w' H. specialize (Hm w).
  apply andThen_inl in H as [H|(a & w1 & H1 & H2)].
  - now rewrite H in Hm.
  - rewrite H1 in Hm. cbn [snd] in Hm. rewrite <- Hm. eapply Hk, H2.
Qed.

Lemma failsKeeping_neverFails {A B} (proj : World -> B) (m : M A) :
  neverFails m -> failsKeeping proj m.
Proof. intros H w e w' Hm. destruct (H w) as (a & w1 & Ha). congruence. Qed.

Lemma failsKeeping_then_neverFails {A B C} (proj : World -> C) (m : M A) (k : A -> M B) :
  failsKeeping proj m -> (forall a, neverFails (k a)) ->
  failsKeeping proj (andThen m k).
Proof.
  intros Hm Hk w e w' H.
  apply andThen_inl in H as [H|(a & w1 & H1 & H2)].
  - eapply Hm, H.
  - destruct (Hk a w1) as (b & w2 & Hb). congruence.
Qed.

Lemma failsKeeping_collaborator_modify env {B} (proj : World -> B) op f :
  failsKeeping proj (collaborator env op (modify f)).
Proof.
  intros w e w' H. unfold collaborator, modify in H.
  destruct (fault env op); congruence.
Qed.

Create HintDb footprint discriminated.

#[export] Hint Resolve keeps_resolve keeps_reject keeps_gets keeps_collaborator
  keeps_forOf keeps_promiseAll : footprint.

(** ** The listings as functions of the store *)

Lemma linkedSources_linkedRows env integration h w :
  fault env (Op_metaList2 h BASES) = None ->
  linkedSources env integration h w = (inr (linkedRows integration (storeOf h w)), w).
Proof. apply linkedSources_rows. Qed.

Lemma sourcesUsing_usingRows env integration h w :
  fault env (Op_metaList2 h BASES) = None ->
  sourcesUsing env integration h w = (inr (usingRows env integration (storeOf h w)), w).
Proof. apply sourcesUsing_rows. Qed.

Lemma linkedSources_cases env integration h w :
  (exists e, fault env (Op_metaList2 h BASES) = Some e
             /\ linkedSources env integration h w = (inl e, w))
  \/ (fault env (Op_metaList2 h BASES) = None
      /\ linkedSources env integration h w
         = (inr (linkedRows integration (storeOf h w)), w)).
Proof.
  destruct (fault env (Op_metaList2 h BASES)) as [e|] eqn:Hf.
  - left. exists e. split; [reflexivity|].
    unfold linkedSources, metaList2. now apply collaborator_fault.
  - right. split; [reflexivity|]. now apply linkedSources_linkedRows.
Qed.

Lemma sourcesUsing_cases env integration h w :
  (exists e, fault env (Op_metaList2 h BASES) = Some e
             /\ sourcesUsing env integration h w = (inl e, w))
  \/ (fault env (Op_metaList2 h BASES) = None
      /\ sourcesUsing env integration h w
         = (inr (usingRows env integration (storeOf h w)), w)).
Proof.
  destruct (fault env (Op_metaList2 h BASES)) as [e|] eqn:Hf.
  - left. exists e. split; [reflexivity|].
    unfold sourcesUsing, metaList2. now apply collaborator_fault.
  - right. split; [reflexivity|]. now apply sourcesUsing_usingRows.
Qed.

Lemma Integration_get_cases env ctx id flag h w :
  (exists e, fault env (Op_Integration_get id flag h) = Some e
             /\ Integration_get env ctx id flag h w = (inl e, w))
  \/ (fault env (Op_Integration_get id flag h) = None
      /\ Integration_get env ctx id flag h w
         = (inr (List.find (fun j => String.eqb (Integration.id j) id)
                   (integrations (storeOf h w))), w)).
Proof.
  unfold Integration_get, collaborator, gets.
  destruct (fault env (Op_Integration_get id flag h)) as [e|]; eauto.
Qed.

(** ** Hard delete: refusal, success, failure *)

Lemma promiseAll_Base_get env ws h rows w :
  (forall b, fault env (Op_Base_get b) = None) ->
  promiseAll rows
    (fun source => Base_get env ws (Source.base_id source)
                     (Source.base_id source) h) w
  = (inr (List.map (baseOf (storeOf h w)) rows), w).
Proof.
  intros Hb. induction rows as [|s rows IH]; [reflexivity|].
  cbn [promiseAll List.map].
  assert (Hs : Base_get env ws (Source.base_id s) (Source.base_id s) h w
               = (inr (baseOf (storeOf h w) s), w)).
  { unfold Base_get, collaborator. rewrite Hb. reflexivity. }
  rewrite (andThen_step _ _ _ _ _ Hs), (andThen_step _ _ _ _ _ IH).
  reflexivity.
Qed.

(** X1. When at least one active source depends on the integration, the
    base of every such source is found, and the delete is not forced, the
    [try] block raises the refusal before it tears anything down: the error
    carries the listed sources in listing order with the base of each, and the
    world is exactly as the block found it -- no source deleted, no cache
    entry or connection dropped, no event. *)
Theorem integrationDelete_try_refuses_first env ctx id rq h w i :
  fault env (Op_Integration_get id true h) = None ->
  List.find (fun j => String.eqb (Integration.id j) id)
    (integrations (storeOf h w)) = Some i ->
  fault env (Op_metaList2 h BASES) = None ->
  linkedRows i (storeOf h w) <> [] ->
  (forall b, fault env (Op_Base_get b) = None) ->
  (forall s, In s (linkedRows i (storeOf h w)) ->
             exists b, baseOf (storeOf h w) s = Some b) ->
  integrationDelete_try env ctx id rq false h w
  = (inl (IntegrationLinkedWithMultiple
            (List.map (baseOf (storeOf h w)) (linkedRows i (storeOf h w)))
            (linkedRows i (storeOf h w))), w).
Proof.
  intros Hget Hfind Hlist Hrows Hbase Hfound.
  unfold integrationDelete_try.
  destruct (Integration_get_cases env ctx id true h w) as [(e & He & _)|[_ Hg]];
    [congruence|].
  rewrite (andThen_step _ _ _ _ _ Hg), Hfind.
  rewrite (andThen_step _ _ _ _ _ (linkedSources_linkedRows env i h w Hlist)).
  assert (Hall : forallb (fun b : option Base.t =>
                            match b with Some _ => true | None => false end)
                   (List.map (baseOf (storeOf h w)) (linkedRows i (storeOf h w)))
                 = true).
  { apply List.forallb_forall. intros ob Hin.
    apply List.in_map_iff in Hin as (s & <- & Hs).
    destruct (Hfound s Hs) as (b & ->). reflexivity. }
  destruct (linkedRows i (storeOf h w)) as [|s rows] eqn:Hr; [congruence|].
  cbn [length Nat.ltb Nat.leb negb andb].
  apply andThen_fail.
  rewrite (andThen_step _ _ _ _ _ (promiseAll_Base_get env _ h (s :: rows) w Hbase)).
  unfold NcError_integrationLinkedWithMultiple. rewrite Hall. reflexivity.
Qed.

Lemma integrationDelete_try_refuses_first_witness :
  integrationDelete_try (Scenario.env Scenario.faultless) Scenario.ctx "int1"
    Scenario.rq false RootMeta Scenario.world
  = (inl (IntegrationLinkedWithMultiple
            [Some Scenario.b1; Some Scenario.b2; Some Scenario.b3]
            [Scenario.s1; Scenario.s2; Scenario.s3]), Scenario.world).
Proof.
  apply (integrationDelete_try_refuses_first (Scenario.env Scenario.faultless)
           Scenario.ctx "int1" Scenario.rq RootMeta Scenario.world Scenario.pg).
  - reflexivity.
  - reflexivity.
  - reflexivity.
  - vm_compute. discriminate.
  - intros b. reflexivity.
  - intros s Hs. vm_compute in Hs.
    destruct Hs as [<-|[<-|[<-|[]]]]; eexists; reflexivity.
Defined.

(** X2. When no active source depends on the integration, [force] makes no
    difference: the forced and the unforced delete give the same result and
    the same world, whatever the collaborators do. *)
Theorem integrationDelete_force_irrelevant env ctx id rq w :
  (forall i,
      List.find (fun j => String.eqb (Integration.id j) id)
        (integrations (durable w)) = Some i ->
      linkedRows i (durable w) = []) ->
  integrationDelete env ctx id rq false w = integrationDelete env ctx id rq true w.
Proof.
  intros Hnone.
  assert (Htry : forall w0, durable w0 = durable w -> trx w0 = Some (durable w) ->
            integrationDelete_try env ctx id rq false TrxMeta w0
            = integrationDelete_try env ctx id rq true TrxMeta w0).
  { intros w0 Hd Ht. unfold integrationDelete_try.
    destruct (Integration_get_cases env ctx id true TrxMeta w0)
      as [(e & _ & Hg)|[_ Hg]].
    { now rewrite !(andThen_fail _ _ _ _ _ Hg). }
    rewrite !(andThen_step _ _ _ _ _ Hg).
    cbn [storeOf]. rewrite Ht.
    destruct (List.find _ (integrations (durable w))) as [i|] eqn:Hfind;
      [|reflexivity].
    destruct (linkedSources_cases env i TrxMeta w0) as [(e & _ & Hl)|[_ Hl]].
    { now rewrite !(andThen_fail _ _ _ _ _ Hl). }
    rewrite !(andThen_step _ _ _ _ _ Hl).
    cbn [storeOf]. rewrite Ht, (Hnone i eq_refl). reflexivity. }
  unfold integrationDelete, andThen at 1 3, startTransaction, collaborator.
  destruct (fault env Op_startTransaction); [reflexivity|].
  unfold andThen, tryCatch. rewrite Htry; reflexivity.
Qed.

Lemma integrationDelete_force_irrelevant_witness :
  integrationDelete (Scenario.env Scenario.commitFails) Scenario.ctx "int1"
    Scenario.rq false Scenario.lonely
  = integrationDelete (Scenario.env Scenario.commitFails) Scenario.ctx "int1"
      Scenario.rq true Scenario.lonely.
Proof.
  apply integrationDelete_force_irrelevant.
  intros i Hi. vm_compute in Hi. injection Hi as <-. reflexivity.
Defined.

Lemma filter_filter_and {A} (p q : A -> bool) (l : list A) :
  List.filter p (List.filter q l) = List.filter (fun x => q x && p x) l.
Proof.
  induction l as [|x l IH]; [reflexivity|].
  cbn [List.filter]. destruct (q x); cbn [List.filter andb].
  - destruct (p x); now rewrite IH.
  - exact IH.
Qed.

Lemma filter_all {A} (p : A -> bool) (l : list A) :
  (forall x, p x = true) -> List.filter p l = l.
Proof.
  intros Hp. induction l as [|x l IH]; [reflexivity|].
  cbn [List.filter]. now rewrite Hp, IH.
Qed.

Lemma baseDelete_trx_inv env ws b sid rq w st u w2 :
  trx w = Some st ->
  baseDelete env ws b sid rq TrxMeta w = (inr u, w2) ->
  trx w2 = Some (setSourceRows
                   (List.filter (fun s => negb (String.eqb (Source.id s) sid))
                      (sources st)) st)
  /\ events w2 = events w.
Proof.
  intros Ht H. unfold baseDelete, collaborator, modify in H.
  destruct (fault env (Op_baseDelete sid)); [discriminate|].
  injection H as _ <-. cbn [storeOf]. rewrite Ht. split; reflexivity.
Qed.

Lemma cascade_trx_inv env ws rq rows :
  forall w st w2,
    trx w = Some st ->
    forOf rows
      (fun source => baseDelete env ws (Source.base_id source)
                       (Source.id source) rq TrxMeta) w = (inr tt, w2) ->
    trx w2 = Some (setSourceRows
                     (List.filter (fun s => negb (listed rows s)) (sources st)) st)
    /\ events w2 = events w.
Proof.
  induction rows as [|x rows IH]; intros w st w2 Ht H.
  - cbn in H. injection H as <-. split; [|reflexivity].
    rewrite Ht. f_equal. unfold setSourceRows. destruct st as [ints srcs bss].
    cbn. f_equal. symmetry. now apply filter_all.
  - cbn [forOf] in H. apply andThen_inr in H as (u & w1 & Hx & Hrest).
    destruct (baseDelete_trx_inv _ _ _ _ _ _ _ _ _ Ht Hx) as [Ht1 He1].
    destruct (IH _ _ _ Ht1 Hrest) as [Ht2 He2].
    split; [|congruence].
    rewrite Ht2. f_equal. unfold setSourceRows.
    cbn [integrations sources bases]. f_equal.
    rewrite filter_filter_and. apply List.filter_ext. intros s.
    cbn [listed existsb]. fold (listed rows s).
    now rewrite negb_orb.
Qed.

Lemma Integration_delete_trx_inv env i w st u w2 :
  trx w = Some st ->
  Integration_delete env i TrxMeta w = (inr u, w2) ->
  trx w2 = Some (setIntegrations
                   (List.filter
                      (fun j => negb (String.eqb (Integration.id j) (Integration.id i)))
                      (integrations st)) st)
  /\ events w2 = events w.
Proof.
  intros Ht H. unfold Integration_delete, collaborator, modify in H.
  destruct (fault env (Op_Integration_delete (Integration.id i))); [discriminate|].
  injection H as _ <-. cbn [storeOf]. rewrite Ht. split; reflexivity.
Qed.

Lemma commit_inv env w st u w2 :
  trx w = Some st ->
  commit env w = (inr u, w2) ->
  durable w2 = st /\ trx w2 = None /\ events w2 = events w.
Proof.
  intros Ht H. unfold commit, collaborator, modify in H.
  destruct (fault env Op_commit); [discriminate|].
  rewrite Ht in H. injection H as _ <-. repeat split.
Qed.

Lemma integrationDelete_inv env ctx id rq force w r w' :
  integrationDelete env ctx id rq force w = (r, w') ->
  (exists e, fault env Op_startTransaction = Some e /\ r = inl e /\ w' = w)
  \/ (fault env Op_startTransaction = None
      /\ ((exists e w1,
              integrationDelete_try env ctx id rq force TrxMeta
                (setTrx (Some (durable w)) w) = (inl e, w1)
              /\ r = inl (BadRequest e) /\ w' = setTrx None w1)
          \/ (integrationDelete_try env ctx id rq force TrxMeta
                (setTrx (Some (durable w)) w) = (inr tt, w')
              /\ r = inr true))).
Proof.
  unfold integrationDelete, andThen, startTransaction, collaborator, tryCatch.
  destruct (fault env Op_startTransaction) as [e|].
  - intros H. left. exists e. split; [reflexivity|]. split; congruence.
  - intros H. right. split; [reflexivity|].
    destruct (integrationDelete_try env ctx id rq force TrxMeta _)
      as [[e|[]] w1].
    + left. exists e, w1. cbn in H. unfold reject in H.
      split; [reflexivity|]. split; congruence.
    + right. cbn in H. unfold resolve in H. split; congruence.
Qed.

(** X3. A delete that succeeds returns [true] and means this: the
    integration existed; either nothing active depended on it or the delete
    was forced; its row is gone; the sources that were listed as active
    dependents are gone and no other source row is; the bases are untouched;
    the transaction is closed; and exactly one INTEGRATION_DELETE event,
    carrying the integration as it was loaded, has been emitted. *)
Theorem integrationDelete_success env ctx id rq force w b w' :
  integrationDelete env ctx id rq force w = (inr b, w') ->
  b = true
  /\ exists i,
       List.find (fun j => String.eqb (Integration.id j) id)
         (integrations (durable w)) = Some i
       /\ (linkedRows i (durable w) = [] \/ force = true)
       /\ integrations (durable w')
          = List.filter (fun j => negb (String.eqb (Integration.id j) id))
              (integrations (durable w))
       /\ sources (durable w')
          = List.filter (fun s => negb (listed (linkedRows i (durable w)) s))
              (sources (durable w))
       /\ bases (durable w') = bases (durable w)
       /\ trx w' = None
       /\ events w' = events w ++ [eventOf INTEGRATION_DELETE i rq].
Proof.
  intros H.
  apply integrationDelete_inv in H
    as [(e & _ & He & _)|[_ [(e & w1 & _ & He & _)|[Htry Hb]]]];
    try discriminate.
  split; [congruence|].
  remember (setTrx (Some (durable w)) w) as w0 eqn:Hw0.
  assert (Ht0 : trx w0 = Some (durable w)) by (now subst w0).
  assert (He0 : events w0 = events w) by (now subst w0).
  clear Hw0.
  unfold integrationDelete_try in Htry.
  apply andThen_inr in Htry as (found & wa & Hget & Htry).
  destruct (Integration_get_cases env ctx id true TrxMeta w0)
    as [(e & _ & Hg)|[_ Hg]]; [congruence|].
  rewrite Hg in Hget. injection Hget as <- <-.
  cbn [storeOf] in Htry. rewrite Ht0 in Htry.
  destruct (List.find _ (integrations (durable w))) as [i|] eqn:Hfind;
    [|discriminate].
  pose proof (find_by_id_found _ _ _ Hfind) as [_ Hid].
  exists i. split; [reflexivity|].
  apply andThen_inr in Htry as (rows & wb & Hlist & Htry).
  destruct (linkedSources_cases env i TrxMeta w0) as [(e & _ & Hl)|[_ Hl]];
    [congruence|].
  rewrite Hl in Hlist. injection Hlist as <- <-.
  cbn [storeOf] in Htry. rewrite Ht0 in Htry.
  apply andThen_inr in Htry as ([] & wc & Hcheck & Htry).
  assert (Hfree : (linkedRows i (durable w) = [] \/ force = true) /\ wc = w0).
  { destruct (linkedRows i (durable w)) as [|s rows]; cbn in Hcheck.
    - split; [now left|]. unfold resolve in Hcheck. congruence.
    - destruct force; cbn in Hcheck.
      + split; [now right|]. unfold resolve in Hcheck. congruence.
      + exfalso. apply andThen_inr in Hcheck as (bs & wd & _ & Hrej).
        unfold NcError_integrationLinkedWithMultiple in Hrej.
        destruct (forallb _ bs); discriminate Hrej. }
  destruct Hfree as [Hfree ->]. split; [exact Hfree|].
  apply andThen_inr in Htry as ([] & w2 & Hcascade & Htry).
  destruct (cascade_trx_inv _ _ _ _ _ _ _ Ht0 Hcascade) as [Ht2 He2].
  apply andThen_inr in Htry as ([] & w3 & Hdel & Htry).
  destruct (Integration_delete_trx_inv _ _ _ _ _ _ Ht2 Hdel) as [Ht3 He3].
  apply andThen_inr in Htry as ([] & w4 & Hemit & Hcommit).
  unfold emit, modify in Hemit. injection Hemit as <-.
  eapply commit_inv in Hcommit as (Hd & Ht5 & He5); [|exact Ht3].
  rewrite Hd, He5. cbn [integrations sources bases setIntegrations setSourceRows
                         events setEvents].
  rewrite Hid, He3, He2, He0.
  repeat split; try reflexivity. exact Ht5.
Qed.

Lemma integrationDelete_success_witness :
  true = true
  /\ exists i,
       List.find (fun j => String.eqb (Integration.id j) "int1")
         (integrations (durable Scenario.world)) = Some i
       /\ (linkedRows i (durable Scenario.world) = [] \/ true = true)
       /\ integrations
            (durable (snd (integrationDelete (Scenario.env Scenario.faultless)
                             Scenario.ctx "int1" Scenario.rq true Scenario.world)))
          = List.filter (fun j => negb (String.eqb (Integration.id j) "int1"))
              (integrations (durable Scenario.world))
       /\ sources
            (durable (snd (integrationDelete (Scenario.env Scenario.faultless)
                             Scenario.ctx "int1" Scenario.rq true Scenario.world)))
          = List.filter
              (fun s => negb (listed (linkedRows i (durable Scenario.world)) s))
              (sources (durable Scenario.world))
       /\ bases
            (durable (snd (integrationDelete (Scenario.env Scenario.faultless)
                             Scenario.ctx "int1" Scenario.rq true Scenario.world)))
          = bases (durable Scenario.world)
       /\ trx (snd (integrationDelete (Scenario.env Scenario.faultless)
                      Scenario.ctx "int1" Scenario.rq true Scenario.world)) = None
       /\ events (snd (integrationDelete (Scenario.env Scenario.faultless)
                         Scenario.ctx "int1" Scenario.rq true Scenario.world))
          = events Scenario.world ++ [eventOf INTEGRATION_DELETE i Scenario.rq].
Proof.
  apply (integrationDelete_success (Scenario.env Scenario.faultless)
           Scenario.ctx "int1" Scenario.rq true Scenario.world true).
  vm_compute. reflexivity.
Defined.

Lemma commit_neverFails env : fault env Op_commit = None -> neverFails (commit env).
Proof.
  intros Hc w. unfold commit, collaborator, modify. rewrite Hc. eauto.
Qed.

Lemma keeps_events_baseDelete env ws b sid rq h :
  keeps events (baseDelete env ws b sid rq h).
Proof.
  unfold baseDelete. apply keeps_collaborator, keeps_modify.
  intros w. destruct h; reflexivity.
Qed.

Lemma keeps_events_Integration_delete env i h :
  keeps events (Integration_delete env i h).
Proof.
  unfold Integration_delete. apply keeps_collaborator, keeps_modify.
  intros w. destruct h; reflexivity.
Qed.

(** With a commit that does not raise, whatever makes the [try] block fail
    happens before the event is emitted. *)
Lemma failsKeeping_events_integrationDelete_try env ctx id rq force h :
  fault env Op_commit = None ->
  failsKeeping events (integrationDelete_try env ctx id rq force h).
Proof.
  intros Hc. unfold integrationDelete_try.
  apply failsKeeping_andThen; [unfold Integration_get; auto with footprint|].
  intros [i|]; [|apply keeps_failsKeeping, keeps_reject].
  apply failsKeeping_andThen;
    [unfold linkedSources, metaList2; auto with footprint|].
  intros rows. apply failsKeeping_andThen.
  { destruct ((0 <? length rows)%nat && negb force).
    - apply keeps_andThen.
      + apply keeps_promiseAll. intros s. unfold Base_get. auto with footprint.
      + intros bs. unfold NcError_integrationLinkedWithMultiple.
        destruct (forallb _ bs); apply keeps_reject.
    - apply keeps_resolve. }
  intros _. apply failsKeeping_andThen.
  { apply keeps_forOf. intros s. apply keeps_events_baseDelete. }
  intros _. apply failsKeeping_andThen; [apply keeps_events_Integration_delete|].
  intros _. apply failsKeeping_neverFails. intros w.
  unfold andThen, emit, modify. cbv beta iota zeta.
  match goal with
  | |- context [commit env ?x] =>
      destruct (commit_neverFails env Hc x) as (a & w' & Hw)
  end.
  rewrite Hw. eauto.
Qed.

(** X4. A delete that fails fails in one of two ways. Either the
    transaction could not be opened: the caller gets that error as it is and
    the world is untouched. Or the [try] block raised: the caller gets a
    [BadRequest], the durable tables are as before, the transaction is
    closed, and -- unless it is the commit that raises -- no event has been
    emitted. *)
Theorem integrationDelete_failure env ctx id rq force w err w' :
  integrationDelete env ctx id rq force w = (inl err, w') ->
  (fault env Op_startTransaction = Some err /\ w' = w)
  \/ (exists e,
        err = BadRequest e
        /\ durable w' = durable w
        /\ trx w' = None
        /\ (fault env Op_commit = None -> events w' = events w)).
Proof.
  intros H.
  apply integrationDelete_inv in H
    as [(e & Hs & He & Hw)|[_ [(e & w1 & Htry & He & Hw)|[_ Hb]]]].
  - left. split; congruence.
  - right. exists e. subst w'. split; [congruence|].
    split; [|split; [reflexivity|]].
    + cbn [durable setTrx].
      now rewrite (failsClean_integrationDelete_try _ _ _ _ _ _ _ _ Htry).
    + intros Hc. cbn [events setTrx].
      now rewrite (failsKeeping_events_integrationDelete_try
                     _ _ _ _ _ _ Hc _ _ _ Htry).
  - discriminate.
Qed.

Lemma integrationDelete_failure_witness :
  ((Cases.startFails Op_startTransaction = Some (Failure "no connection")
    /\ snd (integrationDelete (Scenario.env Cases.startFails) Scenario.ctx "int1"
              Scenario.rq true Scenario.world) = Scenario.world)
   \/ (exists e,
         Failure "no connection" = BadRequest e
         /\ durable (snd (integrationDelete (Scenario.env Cases.startFails)
                            Scenario.ctx "int1" Scenario.rq true Scenario.world))
            = durable Scenario.world
         /\ trx (snd (integrationDelete (Scenario.env Cases.startFails)
                        Scenario.ctx "int1" Scenario.rq true Scenario.world)) = None
         /\ (Cases.startFails Op_commit = None ->
             events (snd (integrationDelete (Scenario.env Cases.startFails)
                            Scenario.ctx "int1" Scenario.rq true Scenario.world))
             = events Scenario.world)))
  /\
  ((Scenario.cascadeFailsAt "src2" Op_startTransaction
    = Some (BadRequest (Failure "cascade failed"))
    /\ snd (integrationDelete (Scenario.env (Scenario.cascadeFailsAt "src2"))
              Scenario.ctx "int1" Scenario.rq true Scenario.world) = Scenario.world)
   \/ (exists e,
         BadRequest (Failure "cascade failed") = BadRequest e
         /\ durable (snd (integrationDelete
                            (Scenario.env (Scenario.cascadeFailsAt "src2"))
                            Scenario.ctx "int1" Scenario.rq true Scenario.world))
            = durable Scenario.world
         /\ trx (snd (integrationDelete
                        (Scenario.env (Scenario.cascadeFailsAt "src2"))
                        Scenario.ctx "int1" Scenario.rq true Scenario.world)) = None
         /\ (Scenario.cascadeFailsAt "src2" Op_commit = None ->
             events (snd (integrationDelete
                            (Scenario.env (Scenario.cascadeFailsAt "src2"))
                            Scenario.ctx "int1" Scenario.rq true Scenario.world))
             = events Scenario.world))).
Proof.
  split.
  - apply (integrationDelete_failure (Scenario.env Cases.startFails)
             Scenario.ctx "int1" Scenario.rq true Scenario.world).
    vm_compute. reflexivity.
  - apply (integrationDelete_failure
             (Scenario.env (Scenario.cascadeFailsAt "src2"))
             Scenario.ctx "int1" Scenario.rq true Scenario.world).
    vm_compute. reflexivity.
Defined.

(** ** Propagation: what it touches, what it sends, running it again *)

Lemma refreshFootprint_refl env rows w : refreshFootprint env rows w w.
Proof. unfold refreshFootprint. repeat split; auto. Qed.

Lemma refreshFootprint_step env x rest w w1 w2 :
  refreshFootprint env [x] w w1 ->
  refreshFootprint env rest w1 w2 ->
  refreshFootprint env (x :: rest) w w2.
Proof.
  intros (Hd1 & Ht1 & He1 & Hl1 & Ha1 & Hc1 & Hn1 & Hr1)
         (Hd2 & Ht2 & He2 & Hl2 & Ha2 & Hc2 & Hn2 & Hr2).
  unfold refreshFootprint.
  split; [congruence|]. split; [congruence|]. split; [congruence|].
  split; [congruence|]. split; [congruence|]. split; [|split].
  - intros k Hk. cbn [keyIn existsb] in Hk. fold (keyIn env k rest) in Hk.
    apply orb_false_iff in Hk as [Hx Hrest].
    rewrite Hc2 by exact Hrest. apply Hc1. cbn [keyIn existsb].
    now rewrite Hx.
  - intros k. rewrite Hn2. apply Hn1.
  - intros p Hp. auto.
Qed.

Lemma refreshFootprint_cache env i s w w' :
  durable w' = durable w -> trx w' = trx w -> events w' = events w ->
  logged w' = logged w -> jobsRedisAvailable w' = jobsRedisAvailable w ->
  (cache w' = cache w
   \/ cache w' = alter (setIntegrationConfig (Integration.config i))
                   (cacheKey env (Source.id s)) (cache w)) ->
  (connectionRefs w' = connectionRefs w
   \/ connectionRefs w' = connectionRefs w ∖ {[ sourceKey s ]}) ->
  refreshFootprint env [s] w w'.
Proof.
  intros Hd Ht He Hl Ha Hc Hr. unfold refreshFootprint.
  split; [exact Hd|]. split; [exact Ht|]. split; [exact He|].
  split; [exact Hl|]. split; [exact Ha|]. split; [|split].
  - intros k Hk. cbn [keyIn existsb] in Hk. rewrite orb_false_r in Hk.
    apply String.eqb_neq in Hk.
    destruct Hc as [-> | ->]; [reflexivity|]. now apply lookup_alter_ne.
  - intros k. destruct Hc as [-> | ->]; [reflexivity|]. apply lookup_alter_None.
  - intros p Hp. destruct Hr as [Hr | Hr]; rewrite Hr in Hp; [exact Hp|].
    now apply elem_of_difference in Hp as [Hp _].
Qed.

Lemma refreshSource_footprint env i s w :
  refreshFootprint env [s] w (snd (refreshSource env i s w)).
Proof.
  unfold refreshSource, andThen, NocoCache_update, NcConnectionMgrv2_deleteAwait,
    JobsRedis_emitWorkerCommand, JobsRedis_emitPrimaryCommand, collaborator,
    modify, gets.
  destruct (fault env (Op_NocoCache_update _));
    [apply refreshFootprint_refl|].
  destruct (fault env (Op_deleteAwait _)); cbn [snd];
    [apply (refreshFootprint_cache env i); cbn; auto|].
  cbn [jobsRedisAvailable setConnectionRefs setCache].
  destruct (jobsRedisAvailable w); cbn [snd resolve];
    [|apply (refreshFootprint_cache env i); cbn; auto].
  destruct (fault env (Op_emitWorkerCommand _)); cbn [snd];
    [apply (refreshFootprint_cache env i); cbn; auto|].
  destruct (fault env (Op_emitPrimaryCommand _)); cbn [snd];
    apply (refreshFootprint_cache env i); cbn; auto.
Qed.

Lemma forOf_refresh_footprint env i rows :
  forall w, refreshFootprint env rows w (snd (forOf rows (refreshSource env i) w)).
Proof.
  induction rows as [|s rows IH]; intros w.
  - apply refreshFootprint_refl.
  - cbn [forOf]. unfold andThen.
    pose proof (refreshSource_footprint env i s w) as Hs.
    destruct (refreshSource env i s w) as [[e|[]] w1]; cbn [snd] in *.
    + eapply refreshFootprint_step; [exact Hs|apply refreshFootprint_refl].
    + eapply refreshFootprint_step; [exact Hs|apply IH].
Qed.

(** X5. Whatever fails on the way, the propagation of an update writes
    nothing to the durable tables, emits no event, and stays within the
    dependents it listed: a cache entry that is not the entry of a listed
    source (that of a soft-deleted source, say) is left as it was, no cache
    entry is created or dropped, and connection references are only ever
    removed. *)
Theorem propagation_footprint env integration w :
  let w' := snd (updateIntegrationSourceConfig env integration RootMeta w) in
  durable w' = durable w
  /\ events w' = events w
  /\ (forall k, keyIn env k (usingRows env integration (durable w)) = false ->
                cache w' !! k = cache w !! k)
  /\ (forall k, cache w' !! k = None <-> cache w !! k = None)
  /\ (forall p, p ∈ connectionRefs w' -> p ∈ connectionRefs w).
Proof.
  cbv zeta. unfold updateIntegrationSourceConfig.
  destruct (sourcesUsing_cases env integration RootMeta w)
    as [(e & _ & Hl)|[_ Hl]].
  - rewrite (andThen_fail _ _ _ _ _ Hl). cbn [snd]. repeat split; auto.
  - rewrite (andThen_step _ _ _ _ _ Hl). cbn [storeOf].
    destruct (forOf_refresh_footprint env integration
                (usingRows env integration (durable w)) w)
      as (Hd & _ & He & _ & _ & Hc & Hn & Hr).
    repeat split; auto; apply Hn.
Qed.

Lemma propagation_footprint_witness :
  Source.integration_config
    <$> (cache (snd (updateIntegrationSourceConfig (Scenario.env Scenario.faultless)
                       Scenario.pgResealed RootMeta Cases.worldWithStale))
           !! "base:src4")
  = Some (Some "sealed").
Proof.
  destruct (propagation_footprint (Scenario.env Scenario.faultless)
              Scenario.pgResealed Cases.worldWithStale)
    as (_ & _ & Hcache & _).
  rewrite (Hcache "base:src4"); vm_compute; reflexivity.
Defined.

Lemma refreshSource_ok env i s w :
  fault env (Op_NocoCache_update (cacheKey env (Source.id s))) = None ->
  fault env (Op_deleteAwait (Source.id s)) = None ->
  fault env (Op_emitWorkerCommand (Source.id s)) = None ->
  fault env (Op_emitPrimaryCommand (Source.id s)) = None ->
  exists w',
    refreshSource env i s w = (inr tt, w')
    /\ jobsRedisAvailable w' = jobsRedisAvailable w
    /\ cache w' = alter (setIntegrationConfig (Integration.config i))
                    (cacheKey env (Source.id s)) (cache w)
    /\ connectionRefs w' = connectionRefs w ∖ {[ sourceKey s ]}
    /\ workerCommands w'
       = workerCommands w
         ++ (if jobsRedisAvailable w then [(RELEASE, Source.id s)] else [])
    /\ primaryCommands w'
       = primaryCommands w
         ++ (if jobsRedisAvailable w then [(RELEASE, Source.id s)] else []).
Proof.
  intros Hc Hr Hw Hp.
  unfold refreshSource, andThen, NocoCache_update, NcConnectionMgrv2_deleteAwait,
    JobsRedis_emitWorkerCommand, JobsRedis_emitPrimaryCommand, collaborator,
    modify, gets.
  rewrite Hc, Hr. cbn [jobsRedisAvailable setConnectionRefs setCache].
  destruct (jobsRedisAvailable w) eqn:Hav.
  - rewrite Hw, Hp. eexists. split; [reflexivity|].
    cbn. rewrite Hav. repeat split.
  - eexists. split; [reflexivity|].
    cbn. rewrite Hav, !app_nil_r. repeat split.
Qed.

Lemma forOf_refresh_ok env i rows :
  (forall key, fault env (Op_NocoCache_update key) = None) ->
  (forall id, fault env (Op_deleteAwait id) = None) ->
  (forall id, fault env (Op_emitWorkerCommand id) = None) ->
  (forall id, fault env (Op_emitPrimaryCommand id) = None) ->
  forall w,
    exists w',
      forOf rows (refreshSource env i) w = (inr tt, w')
      /\ jobsRedisAvailable w' = jobsRedisAvailable w
      /\ workerCommands w'
         = workerCommands w
           ++ (if jobsRedisAvailable w then releaseCommands rows else [])
      /\ primaryCommands w'
         = primaryCommands w
           ++ (if jobsRedisAvailable w then releaseCommands rows else [])
      /\ (forall k, cache w' !! k =
                    if keyIn env k rows
                    then setIntegrationConfig (Integration.config i)
                           <$> (cache w !! k)
                    else cache w !! k)
      /\ (forall p, p ∈ connectionRefs w' <->
                    p ∈ connectionRefs w /\ ~ In p (List.map sourceKey rows)).
Proof.
  intros Hc Hr Hw Hp.
  induction rows as [|s rows IH]; intros w.
  - exists w. cbn [forOf releaseCommands List.map keyIn existsb In].
    split; [reflexivity|]. split; [reflexivity|].
    split; [destruct (jobsRedisAvailable w); now rewrite app_nil_r|].
    split; [destruct (jobsRedisAvailable w); now rewrite app_nil_r|].
    split; [reflexivity|]. intros p. tauto.
  - destruct (refreshSource_ok env i s w (Hc _) (Hr _) (Hw _) (Hp _))
      as (w1 & Hs & Ha1 & Hc1 & Hr1 & Hw1 & Hp1).
    destruct (IH w1) as (w' & Hrun & Ha2 & Hw2 & Hp2 & Hc2 & Hr2).
    exists w'. cbn [forOf]. rewrite (andThen_step _ _ _ _ _ Hs).
    split; [exact Hrun|]. split; [congruence|].
    split.
    { rewrite Hw2, Hw1, Ha1. destruct (jobsRedisAvailable w);
        cbn [releaseCommands List.map]; now rewrite <- app_assoc. }
    split.
    { rewrite Hp2, Hp1, Ha1. destruct (jobsRedisAvailable w);
        cbn [releaseCommands List.map]; now rewrite <- app_assoc. }
    split.
    + intros k. rewrite Hc2, Hc1. cbn [keyIn existsb].
      fold (keyIn env k rows).
      destruct (String.eqb (cacheKey env (Source.id s)) k) eqn:Hk.
      * apply String.eqb_eq in Hk. subst k. rewrite lookup_alter_eq.
        cbn [orb]. destruct (keyIn env _ rows); [|reflexivity].
        destruct (cache w !! cacheKey env (Source.id s)); reflexivity.
      * apply String.eqb_neq in Hk. rewrite lookup_alter_ne by exact Hk.
        reflexivity.
    + intros p. rewrite Hr2, Hr1. cbn [List.map In].
      rewrite elem_of_difference, elem_of_singleton.
      split.
      * intros [[Hin Hne] Hnot]. split; [exact Hin|].
        intros [Heq|Hin']; [|tauto]. now apply Hne.
      * intros [Hin Hnot]. split; [split; [exact Hin|]|tauto].
        intros Heq. apply Hnot. left. now symmetry.
Qed.

(** X6. With the command bus available and nothing failing, the
    propagation sends exactly one RELEASE per listed source on the worker
    channel and one on the primary channel, in the order of the listing, after
    whatever the channels already carried. *)
Theorem propagation_sends_releases env integration w :
  jobsRedisAvailable w = true ->
  fault env (Op_metaList2 RootMeta BASES) = None ->
  (forall key, fault env (Op_NocoCache_update key) = None) ->
  (forall id, fault env (Op_deleteAwait id) = None) ->
  (forall id, fault env (Op_emitWorkerCommand id) = None) ->
  (forall id, fault env (Op_emitPrimaryCommand id) = None) ->
  exists w',
    updateIntegrationSourceConfig env integration RootMeta w = (inr tt, w')
    /\ workerCommands w'
       = workerCommands w ++ releaseCommands (usingRows env integration (durable w))
    /\ primaryCommands w'
       = primaryCommands w ++ releaseCommands (usingRows env integration (durable w)).
Proof.
  intros Hav Hl Hc Hr Hw Hp.
  destruct (forOf_refresh_ok env integration
              (usingRows env integration (durable w)) Hc Hr Hw Hp w)
    as (w' & Hrun & _ & Hw' & Hp' & _).
  rewrite Hav in Hw', Hp'.
  exists w'. split; [|split; assumption].
  unfold updateIntegrationSourceConfig.
  rewrite (andThen_step _ _ _ _ _ (sourcesUsing_usingRows env integration RootMeta w Hl)).
  exact Hrun.
Qed.

Lemma propagation_sends_releases_witness :
  exists w',
    updateIntegrationSourceConfig (Scenario.env Scenario.faultless)
      Scenario.pgResealed RootMeta Cases.worldWithStale = (inr tt, w')
    /\ workerCommands w' = [(RELEASE, "src1"); (RELEASE, "src2"); (RELEASE, "src3")]
    /\ primaryCommands w' = [(RELEASE, "src1"); (RELEASE, "src2"); (RELEASE, "src3")].
Proof.
  apply (propagation_sends_releases (Scenario.env Scenario.faultless)
           Scenario.pgResealed Cases.worldWithStale);
    try reflexivity; intros; reflexivity.
Defined.

(** X7. Running the propagation a second time, nothing failing, changes
    neither the cache nor the connection references nor the durable tables:
    what the first run left is what the second leaves. *)
Theorem propagation_again env integration w :
  fault env (Op_metaList2 RootMeta BASES) = None ->
  (forall key, fault env (Op_NocoCache_update key) = None) ->
  (forall id, fault env (Op_deleteAwait id) = None) ->
  (forall id, fault env (Op_emitWorkerCommand id) = None) ->
  (forall id, fault env (Op_emitPrimaryCommand id) = None) ->
  exists w1 w2,
    updateIntegrationSourceConfig env integration RootMeta w = (inr tt, w1)
    /\ updateIntegrationSourceConfig env integration RootMeta w1 = (inr tt, w2)
    /\ cache w2 = cache w1
    /\ connectionRefs w2 = connectionRefs w1
    /\ durable w2 = durable w1.
Proof.
  intros Hl Hc Hr Hw Hp.
  set (rows := usingRows env integration (durable w)).
  destruct (forOf_refresh_ok env integration rows Hc Hr Hw Hp w)
    as (w1 & Hrun1 & _ & _ & _ & Hc1 & Hr1).
  destruct (forOf_refresh_ok env integration rows Hc Hr Hw Hp w1)
    as (w2 & Hrun2 & _ & _ & _ & Hc2 & Hr2).
  destruct (forOf_refresh_footprint env integration rows w) as (Hd1 & _).
  destruct (forOf_refresh_footprint env integration rows w1) as (Hd2 & _).
  rewrite Hrun1 in Hd1. rewrite Hrun2 in Hd2. cbn [snd] in Hd1, Hd2.
  exists w1, w2.
  split.
  { unfold updateIntegrationSourceConfig.
    rewrite (andThen_step _ _ _ _ _
               (sourcesUsing_usingRows env integration RootMeta w Hl)).
    exact Hrun1. }
  split.
  { unfold updateIntegrationSourceConfig.
    rewrite (andThen_step _ _ _ _ _
               (sourcesUsing_usingRows env integration RootMeta w1 Hl)).
    cbn [storeOf]. rewrite Hd1. exact Hrun2. }
  split; [|split; [|exact Hd2]].
  - apply map_eq. intros k. rewrite Hc2, Hc1.
    destruct (keyIn env k rows); [|reflexivity].
    destruct (cache w !! k); reflexivity.
  - apply set_eq. intros p. rewrite Hr2, Hr1. tauto.
Qed.

Lemma propagation_again_witness :
  exists w1 w2,
    updateIntegrationSourceConfig (Scenario.env Scenario.faultless)
      Scenario.pgResealed RootMeta Cases.worldWithStale = (inr tt, w1)
    /\ updateIntegrationSourceConfig (Scenario.env Scenario.faultless)
         Scenario.pgResealed RootMeta w1 = (inr tt, w2)
    /\ cache w2 = cache w1
    /\ connectionRefs w2 = connectionRefs w1
    /\ durable w2 = durable w1.
Proof.
  apply (propagation_again (Scenario.env Scenario.faultless)
           Scenario.pgResealed Cases.worldWithStale);
    try reflexivity; intros; reflexivity.
Defined.

(** ** Update and create: what the caller and the listeners get *)

Lemma keeps_run {A B} (proj : World -> B) (m : M A) w r w' :
  keeps proj m -> m w = (r, w') -> proj w' = proj w.
Proof. intros Hk Hm. specialize (Hk w). now rewrite Hm in Hk. Qed.

Lemma propagation_keeps env integration w :
  durable (snd (updateIntegrationSourceConfig env integration RootMeta w)) = durable w
  /\ events (snd (updateIntegrationSourceConfig env integration RootMeta w)) = events w.
Proof.
  unfold updateIntegrationSourceConfig.
  destruct (sourcesUsing_cases env integration RootMeta w)
    as [(e & _ & Hl)|[_ Hl]].
  - rewrite (andThen_fail _ _ _ _ _ Hl). split; reflexivity.
  - rewrite (andThen_step _ _ _ _ _ Hl).
    destruct (forOf_refresh_footprint env integration
                (usingRows env integration (storeOf RootMeta w)) w)
      as (Hd & _ & He & _).
    split; assumption.
Qed.





Lemma keeps_validatePayload env {B} (proj : World -> B) schema payload :
  keeps proj (validatePayload env schema payload).
Proof. unfold validatePayload. auto with footprint. Qed.

Lemma keeps_Integration_get env {B} (proj : World -> B) ctx id flag h :
  keeps proj (Integration_get env ctx id flag h).
Proof. unfold Integration_get. auto with footprint. Qed.

Lemma keeps_Integration_getConnectionConfig env {B} (proj : World -> B) i :
  keeps proj (Integration_getConnectionConfig env i).
Proof. unfold Integration_getConnectionConfig. auto with footprint. Qed.

(** The part of [integrationCreate] that decides what to insert. *)
Lemma keeps_integrationCreate_body env {B} (proj : World -> B) ctx body :
  keeps proj
    (if truthy (req_copy_from_id body) then
       let copy_from_id :=
         match req_copy_from_id body with Some x => x | None => EmptyString end in
       andThen (Integration_get env ctx copy_from_id false RootMeta)
         (fun found =>
            match found with
            | Some original =>
                if truthy (Some (Integration.id original)) then
                  andThen (Integration_getConnectionConfig env original)
                    (fun c => resolve (spreadIntegration (setConfig (Some c) original)))
                else reject (IntegrationNotFound copy_from_id)
            | None => reject (IntegrationNotFound copy_from_id)
            end)
     else resolve (spreadReq body)).
Proof.
  destruct (truthy (req_copy_from_id body)); [|apply keeps_resolve].
  cbv zeta. apply keeps_andThen; [apply keeps_Integration_get|].
  intros [original|]; [|apply keeps_reject].
  destruct (truthy (Some (Integration.id original))); [|apply keeps_reject].
  apply keeps_andThen; [apply keeps_Integration_getConnectionConfig|].
  intros c. apply keeps_resolve.
Qed.

Lemma keeps_logger (logger : bool) :
  keeps tablesAndEvents
    (if logger then
       modify (fun w => setLogged (logged w ++ ["Creating the integration"]) w)
     else resolve tt).
Proof.
  destruct logger; [|apply keeps_resolve].
  apply keeps_modify. intros w. reflexivity.
Qed.

Lemma Integration_createIntegration_inv env b w r w' :
  Integration_createIntegration env b w = (r, w') ->
  (exists e, fault env (Op_createIntegration b) = Some e /\ r = inl e /\ w' = w)
  \/ (r = inr (newIntegration env (genId env (durable w)) b)
      /\ w' = setDurable
                (setIntegrations
                   (integrations (durable w)
                    ++ [newIntegration env (genId env (durable w)) b])
                   (durable w)) w).
Proof.
  unfold Integration_createIntegration, collaborator.
  destruct (fault env (Op_createIntegration b)) as [e|]; intros H.
  - left. exists e. split; [reflexivity|]. split; congruence.
  - right. split; congruence.
Qed.

(** X9. A create that fails leaves no trace in the durable tables and emits
    nothing: whether the payload is rejected, the integration to copy is
    missing, the request carries no user, or a collaborator raises, no row has
    been inserted and no event emitted. *)
Theorem integrationCreate_failure_is_clean env ctx body logger rq w e w' :
  integrationCreate env ctx body logger rq w = (inl e, w') ->
  durable w' = durable w /\ events w' = events w.
Proof.
  intros H.
  assert (Hk : failsKeeping tablesAndEvents (integrationCreate env ctx body logger rq)).
  { unfold integrationCreate.
    apply failsKeeping_andThen; [apply keeps_validatePayload|]. intros _.
    apply failsKeeping_andThen; [apply keeps_integrationCreate_body|].
    intros b. apply failsKeeping_andThen; [apply keeps_logger|]. intros _.
    destruct (user rq) as [u|]; [|apply keeps_failsKeeping, keeps_reject].
    apply failsKeeping_then_neverFails.
    - intros w0 e0 w1 Hc.
      apply Integration_createIntegration_inv in Hc
        as [(e1 & _ & _ & ->)|[Hr _]]; [reflexivity|discriminate].
    - intros i w0. unfold andThen, emit, modify, resolve. eauto. }
  specialize (Hk _ _ _ H). unfold tablesAndEvents in Hk.
  split; congruence.
Qed.

Lemma integrationCreate_failure_is_clean_witness :
  durable (snd (integrationCreate (Scenario.env Scenario.faultless) Scenario.ctx
                  (Scenario.cloneOf "int1") true Cases.anonymous Scenario.world))
  = durable Scenario.world
  /\ events (snd (integrationCreate (Scenario.env Scenario.faultless) Scenario.ctx
                    (Scenario.cloneOf "int1") true Cases.anonymous Scenario.world))
     = events Scenario.world.
Proof.
  apply (integrationCreate_failure_is_clean (Scenario.env Scenario.faultless)
           Scenario.ctx (Scenario.cloneOf "int1") true Cases.anonymous
           Scenario.world (TypeError "id")).
  vm_compute. reflexivity.
Defined.

(** X10. A create that succeeds has inserted exactly one row, after the
    existing ones, and touched no other table; the row's creator is the user
    of the request, also when the row is a copy of somebody else's
    integration; what is returned is that row with the config taken out; and
    exactly one event, an INTEGRATION_CREATE carrying the returned object, has
    been emitted. *)
Theorem integrationCreate_success env ctx body logger rq w r w' :
  integrationCreate env ctx body logger rq w = (inr r, w') ->
  exists u created,
    user rq = Some u
    /\ integrations (durable w') = integrations (durable w) ++ [created]
    /\ sources (durable w') = sources (durable w)
    /\ bases (durable w') = bases (durable w)
    /\ Integration.created_by created = Some (User.id u)
    /\ r = setConfig None created
    /\ events w' = events w ++ [eventOf INTEGRATION_CREATE r rq].
Proof.
  intros H. unfold integrationCreate in H.
  apply andThen_inr in H as ([] & wa & Hval & H).
  pose proof (keeps_run tablesAndEvents _ _ _ _
                (keeps_validatePayload env _ _ _) Hval) as Ha.
  apply andThen_inr in H as (b & wb & Hbody & H).
  pose proof (keeps_run tablesAndEvents _ _ _ _
                (keeps_integrationCreate_body env _ ctx body) Hbody) as Hb.
  apply andThen_inr in H as ([] & wc & Hlog & H).
  pose proof (keeps_run tablesAndEvents _ _ _ _ (keeps_logger logger) Hlog) as Hc.
  assert (Hd : durable wc = durable w /\ events wc = events w).
  { unfold tablesAndEvents in *. split; congruence. }
  destruct Hd as [Hd He].
  destruct (user rq) as [u|]; [|discriminate].
  apply andThen_inr in H as (i & w1 & Hcreate & H).
  apply Integration_createIntegration_inv in Hcreate
    as [(e & _ & Hr & _)|[Hi Hw1]]; [discriminate|].
  injection Hi as ->.
  apply andThen_inr in H as ([] & w2 & Hemit & H).
  unfold emit, modify in Hemit. injection Hemit as <-.
  apply resolve_inr in H as [-> ->]. subst w1.
  eexists u, _.
  split; [reflexivity|].
  cbn [durable setEvents setDurable integrations sources bases setIntegrations
       events].
  rewrite Hd, He.
  split; [reflexivity|]. split; [reflexivity|]. split; [reflexivity|].
  split; [|split; reflexivity].
  destruct (truthy (req_copy_from_id body)); reflexivity.
Qed.

Lemma integrationCreate_success_witness :
  exists u created,
    user Scenario.rq = Some u
    /\ integrations
         (durable (snd (integrationCreate (Scenario.env Scenario.faultless)
                          Scenario.ctx (Scenario.cloneOf "int1") true Scenario.rq
                          Scenario.world)))
       = integrations (durable Scenario.world) ++ [created]
    /\ sources
         (durable (snd (integrationCreate (Scenario.env Scenario.faultless)
                          Scenario.ctx (Scenario.cloneOf "int1") true Scenario.rq
                          Scenario.world)))
       = sources (durable Scenario.world)
    /\ bases
         (durable (snd (integrationCreate (Scenario.env Scenario.faultless)
                          Scenario.ctx (Scenario.cloneOf "int1") true Scenario.rq
                          Scenario.world)))
       = bases (durable Scenario.world)
    /\ Integration.created_by created = Some (User.id u)
    /\ Integration.mk "int2" "ws1" "PG_copy" "database" None (Some "u1") None None
       = setConfig None created
    /\ events (snd (integrationCreate (Scenario.env Scenario.faultless)
                      Scenario.ctx (Scenario.cloneOf "int1") true Scenario.rq
                      Scenario.world))
       = events Scenario.world
         ++ [eventOf INTEGRATION_CREATE
               (Integration.mk "int2" "ws1" "PG_copy" "database" None (Some "u1")
                  None None) Scenario.rq].
Proof.
  apply (integrationCreate_success (Scenario.env Scenario.faultless) Scenario.ctx
           (Scenario.cloneOf "int1") true Scenario.rq Scenario.world).
  vm_compute. reflexivity.
Defined.

(** X11. Without [copy_from_id] -- missing, or the empty string, which is
    as good as missing -- a create of a valid payload by a request with a user
    inserts a row with the title, the type and the config of the payload as
    they are, no suffix added, created by that user; [Integration.get] is not
    consulted, so its failures cannot matter. *)
Theorem integrationCreate_plain env ctx body logger rq w u :
  truthy (req_copy_from_id body) = false ->
  fault env (Op_validatePayload IntegrationReq_schema body) = None ->
  user rq = Some u ->
  (forall b, fault env (Op_createIntegration b) = None) ->
  exists created w',
    integrationCreate env ctx body logger rq w = (inr (setConfig None created), w')
    /\ integrations (durable w') = integrations (durable w) ++ [created]
    /\ Integration.title created = req_title body
    /\ Integration.type created = req_type body
    /\ Integration.config created = req_config body
    /\ Integration.created_by created = Some (User.id u).
Proof.
  intros Hcopy Hval Hu Hcreate.
  unfold integrationCreate, andThen, validatePayload, collaborator.
  rewrite Hval, Hcopy. cbn [resolve].
  unfold Integration_createIntegration, collaborator.
  destruct logger; cbn [modify resolve]; rewrite Hu, Hcreate;
    eexists _, _; (split; [reflexivity|]); cbn; auto 10.
Qed.

Lemma integrationCreate_plain_witness :
  exists created w',
    integrationCreate (Scenario.env Cases.lookupsFail) Scenario.ctx Cases.plain
      false Scenario.rq Scenario.world = (inr (setConfig None created), w')
    /\ integrations (durable w') = integrations (durable Scenario.world) ++ [created]
    /\ Integration.title created = "Mail"
    /\ Integration.type created = "ai"
    /\ Integration.config created = Some "sealed mail"
    /\ Integration.created_by created = Some "u1".
Proof.
  apply (integrationCreate_plain (Scenario.env Cases.lookupsFail) Scenario.ctx
           Cases.plain false Scenario.rq Scenario.world (User.mk "u1")).
  - reflexivity.
  - reflexivity.
  - reflexivity.
  - intros b. reflexivity.
Defined.

(** ** Reading an integration *)

(** X12. [integrationGetWithConfig] only reads: whatever it returns and
    whatever fails, the world after the call is the world before it. And it
    does not guard against a missing integration: when there is no row with
    the id, the call never returns a value. *)
Theorem integrationGetWithConfig_reads_only env ctx id includeSources w :
  snd (integrationGetWithConfig env ctx id includeSources w) = w
  /\ (List.find (fun j => String.eqb (Integration.id j) id)
        (integrations (durable w)) = None ->
      exists e, fst (integrationGetWithConfig env ctx id includeSources w) = inl e).
Proof.
  unfold integrationGetWithConfig, andThen, Integration_get,
    Integration_getConnectionConfig, Integration_getSources, collaborator,
    gets, resolve, reject.
  destruct (fault env (Op_Integration_get id false RootMeta)) as [e|];
    [split; [reflexivity|eauto]|].
  cbn [storeOf].
  destruct (List.find _ (integrations (durable w))) as [i|];
    [|split; [reflexivity|eauto]].
  split; [|discriminate].
  destruct (fault env (Op_getConnectionConfig _)); [reflexivity|].
  destruct includeSources; [|reflexivity].
  cbn [setConfig Integration.id].
  destruct (fault env (Op_getSources _)); reflexivity.
Qed.

Lemma integrationGetWithConfig_reads_only_witness :
  snd (integrationGetWithConfig (Scenario.env Scenario.faultless) Scenario.ctx
         "int9" true Scenario.world) = Scenario.world
  /\ exists e,
       fst (integrationGetWithConfig (Scenario.env Scenario.faultless) Scenario.ctx
              "int9" true Scenario.world) = inl e.
Proof.
  destruct (integrationGetWithConfig_reads_only (Scenario.env Scenario.faultless)
              Scenario.ctx "int9" true Scenario.world) as [Hsame Hmissing].
  split; [exact Hsame|]. apply Hmissing. reflexivity.
Defined.

(** ** An update that fails *)

Lemma keeps_events_Integration_updateIntegration env ctx id body :
  keeps events (Integration_updateIntegration env ctx id body).
Proof.
  intros w. unfold Integration_updateIntegration, collaborator.
  destruct (fault env (Op_updateIntegration id)); [reflexivity|].
  destruct (List.find _ (integrations (durable w))); reflexivity.
Qed.

Lemma keeps_events_updateIntegrationSourceConfig env integration :
  keeps events (updateIntegrationSourceConfig env integration RootMeta).
Proof. intros w. apply propagation_keeps. Qed.

(** X13. An update that fails emits no event, wherever it fails: at the
    validation, at the write of the row, at the listing of the dependents or
    in the middle of the propagation. The listeners hear of an update only
    when the caller gets the integration back. *)
Theorem integrationUpdate_failure_emits_nothing env ctx id body rq w e w' :
  integrationUpdate env ctx id body rq w = (inl e, w') ->
  events w' = events w.
Proof.
  revert w e w'.
  change (failsKeeping events (integrationUpdate env ctx id body rq)).
  unfold integrationUpdate.
  apply failsKeeping_andThen; [apply keeps_validatePayload|]. intros _.
  apply failsKeeping_andThen;
    [apply keeps_events_Integration_updateIntegration|].
  intros i.
  apply failsKeeping_andThen;
    [apply keeps_events_updateIntegrationSourceConfig|].
  intros _. apply failsKeeping_neverFails. intros w.
  unfold andThen, emit, modify, resolve. eauto.
Qed.

Lemma integrationUpdate_failure_emits_nothing_witness :
  events (snd (integrationUpdate (Scenario.env (Scenario.releaseFailsFor "src2"))
                 Scenario.ctx "int1" Scenario.newConfig Scenario.rq Scenario.world))
  = events Scenario.world.
Proof.
  apply (integrationUpdate_failure_emits_nothing
           (Scenario.env (Scenario.releaseFailsFor "src2")) Scenario.ctx "int1"
           Scenario.newConfig Scenario.rq Scenario.world (Failure "release failed")).
  vm_compute. reflexivity.
Defined.
